(** * A platformer's tick and level generator (src/main.cpp)

    A shallow embedding of [GameView]: the per-tick update
    [GameView::updatePosition], the level generator
    [GameView::generateLevel], the HUD and the event handlers, followed by
    the properties of the simulation core.

    Conventions of the embedding.
    - [qreal] (a C++ double) is an exact rational [Q]; no rounding is
      modelled.  Equality of coordinates is [Qeq] ([==]) unless the code
      stores the very same value, in which case Leibniz equality is stated.
    - [int] is [Z].  Signed overflow is undefined behaviour in C++, so the
      embedding agrees with the program on every execution that has a
      defined behaviour.
    - The Qt classes the program calls ([QPointF], [QRectF], [qBound],
      [QRandomGenerator], the pen margin of a shape item) are written after
      Qt's documented behaviour; the shape-against-shape collision test
      [QGraphicsItem::collidesWithItem] and the width of the default pen
      are kept abstract.
    - The random generator is the list of the draws it will return, each a
      point of the unit interval; a rejection loop that runs out of draws
      returns [None]. *)

From Stdlib Require Import ZArith QArith Qround Qabs Bool List String Lia Lqa.
From Stdlib Require Import DecimalString.
Import ListNotations.

Local Open Scope Q_scope.

Set Default Proof Using "Type".

(** ** Comparisons of [qreal] values *)

Definition Qltb (x y : Q) : bool := negb (Qle_bool y x).
Definition Qgeb (x y : Q) : bool := Qle_bool y x.

(** [qMin], [qMax], [qBound] and [qAbs] of <QtGlobal>. *)
Definition qMin (a b : Q) : Q := if Qltb a b then a else b.
Definition qMax (a b : Q) : Q := if Qltb a b then b else a.
Definition qBound (lo v hi : Q) : Q := qMax lo (qMin hi v).
Definition qAbs (t : Q) : Q := if Qgeb t 0 then t else - t.

(** ** QPointF and QRectF *)

Record QPointF := mkPoint { px : Q; py : Q }.

Definition setX (p : QPointF) (x : Q) : QPointF := mkPoint x (py p).
Definition setY (p : QPointF) (y : Q) : QPointF := mkPoint (px p) y.

(** [QPointF::isNull]: both coordinates are zero. *)
Definition isNull (p : QPointF) : bool := Qeq_bool (px p) 0 && Qeq_bool (py p) 0.

Record QSizeF := mkSize { sw : Q; sh : Q }.

Record QRectF := mkRect { xp : Q; yp : Q; w : Q; h : Q }.

Definition left (r : QRectF) : Q := xp r.
Definition top (r : QRectF) : Q := yp r.
Definition right (r : QRectF) : Q := xp r + w r.
Definition bottom (r : QRectF) : Q := yp r + h r.
Definition width (r : QRectF) : Q := w r.
Definition height (r : QRectF) : Q := h r.
Definition size (r : QRectF) : QSizeF := mkSize (w r) (h r).

(** [QRectF(const QPointF &topLeft, const QSizeF &size)]. *)
Definition rectAt (p : QPointF) (s : QSizeF) : QRectF :=
  mkRect (px p) (py p) (sw s) (sh s).

(** [QRectF::adjusted(dx1, dy1, dx2, dy2)]. *)
Definition adjusted (r : QRectF) (dx1 dy1 dx2 dy2 : Q) : QRectF :=
  mkRect (xp r + dx1) (yp r + dy1) (w r - dx1 + dx2) (h r - dy1 + dy2).

(** One axis of [QRectF::intersects]: the extent [p, p + len] is put in
    order, an empty extent meets nothing, and extents that only touch do
    not meet. *)
Definition span (p len : Q) : Q * Q :=
  if Qltb len 0 then (p + len, p) else (p, p + len).

Definition spansMeet (a b : Q * Q) : bool :=
  if Qeq_bool (fst a) (snd a) then false
  else if Qeq_bool (fst b) (snd b) then false
  else negb (Qgeb (fst a) (snd b) || Qgeb (fst b) (snd a)).

(** [QRectF::intersects]. *)
Definition intersects (r1 r2 : QRectF) : bool :=
  spansMeet (span (xp r1) (w r1)) (span (xp r2) (w r2)) &&
  spansMeet (span (yp r1) (h r1)) (span (yp r2) (h r2)).

(** [QLineF(p1, p2).length()] is the square root of this number; on exact
    numbers [length < d] is [lengthSquared < d * d] for [d >= 0]. *)
Definition lengthSquared (p1 p2 : QPointF) : Q :=
  (px p2 - px p1) * (px p2 - px p1) + (py p2 - py p1) * (py p2 - py p1).

Definition QPolygonF := list QPointF.

(** ** Keys *)

Definition Key_A : Z := 65.
Definition Key_D : Z := 68.
Definition Key_W : Z := 87.

(** [QSet<int>]: a list without repetitions. *)
Definition QSet := list Z.
Definition contains (s : QSet) (k : Z) : bool := existsb (Z.eqb k) s.
Definition insert (s : QSet) (k : Z) : QSet := if contains s k then s else k :: s.
Definition remove (s : QSet) (k : Z) : QSet := filter (fun k' => negb (Z.eqb k k')) s.

(** ** The random generator

    [Gen A] is a computation that reads draws of
    [QRandomGenerator::generateDouble] (values of the unit interval) and
    fails when none is left. *)

Definition Gen (A : Type) : Type := list Q -> option (A * list Q).

Definition ret {A} (a : A) : Gen A := fun draws => Some (a, draws).

Definition bind {A B} (c : Gen A) (k : A -> Gen B) : Gen B :=
  fun draws =>
    match c draws with
    | Some (a, rest) => k a rest
    | None => None
    end.

Notation "x <- c ;; k" := (bind c (fun x => k))
  (at level 61, c at next level, right associativity).
Notation "' pat <- c ;; k" := (bind c (fun x => match x with pat => k end))
  (at level 61, pat pattern, c at next level, right associativity).

Definition generateDouble : Gen Q :=
  fun draws =>
    match draws with
    | u :: rest => Some (u, rest)
    | [] => None
    end.

(** [bounded(double highest)] is [generateDouble() * highest]. *)
Definition boundedReal (highest : Q) : Gen Q :=
  u <- generateDouble ;; ret (u * highest).

(** [bounded(int lowest, int highest)]: an integer of
    [lowest, highest), here the draw scaled to the range and rounded
    down. *)
Definition boundedInt (lowest highest : Z) : Gen Z :=
  u <- generateDouble ;;
  ret (lowest + Qfloor (u * inject_Z (highest - lowest)))%Z.

(** A draw list the generator can really produce. *)
Definition unitDraw (u : Q) : Prop := 0 <= u /\ u < 1.
Definition unitDraws (draws : list Q) : Prop := Forall unitDraw draws.

(** ** The game view *)

Record GameView := mkGameView {
  playerPos : QPointF;              (* player->pos() *)
  winCircle : option QRectF;        (* the goal's ellipse; nullptr = None *)
  redTriangles : list QPolygonF;
  platforms : list QRectF;          (* rect() of each platform item *)
  keysPressed : QSet;
  verticalVelocity : Z;
  deaths : Z;
  level : Z;
  livesText : string;
  levelsText : string;
  lastSpawnPos : QPointF;
  gameOverText : option string;     (* nullptr = None *)
  sceneRect : QRectF                (* scene()->sceneRect() *)
}.

Definition setPos (g : GameView) (p : QPointF) : GameView :=
  mkGameView p (winCircle g) (redTriangles g) (platforms g) (keysPressed g)
    (verticalVelocity g) (deaths g) (level g) (livesText g) (levelsText g)
    (lastSpawnPos g) (gameOverText g) (sceneRect g).

Definition setVerticalVelocity (g : GameView) (v : Z) : GameView :=
  mkGameView (playerPos g) (winCircle g) (redTriangles g) (platforms g)
    (keysPressed g) v (deaths g) (level g) (livesText g) (levelsText g)
    (lastSpawnPos g) (gameOverText g) (sceneRect g).

Definition setDeaths (g : GameView) (d : Z) : GameView :=
  mkGameView (playerPos g) (winCircle g) (redTriangles g) (platforms g)
    (keysPressed g) (verticalVelocity g) d (level g) (livesText g)
    (levelsText g) (lastSpawnPos g) (gameOverText g) (sceneRect g).

Definition setLevel (g : GameView) (l : Z) : GameView :=
  mkGameView (playerPos g) (winCircle g) (redTriangles g) (platforms g)
    (keysPressed g) (verticalVelocity g) (deaths g) l (livesText g)
    (levelsText g) (lastSpawnPos g) (gameOverText g) (sceneRect g).

Definition setKeysPressed (g : GameView) (s : QSet) : GameView :=
  mkGameView (playerPos g) (winCircle g) (redTriangles g) (platforms g) s
    (verticalVelocity g) (deaths g) (level g) (livesText g) (levelsText g)
    (lastSpawnPos g) (gameOverText g) (sceneRect g).

Definition setSceneRect (g : GameView) (r : QRectF) : GameView :=
  mkGameView (playerPos g) (winCircle g) (redTriangles g) (platforms g)
    (keysPressed g) (verticalVelocity g) (deaths g) (level g) (livesText g)
    (levelsText g) (lastSpawnPos g) (gameOverText g) r.

Definition setRedTriangles (g : GameView) (tris : list QPolygonF) : GameView :=
  mkGameView (playerPos g) (winCircle g) tris (platforms g) (keysPressed g)
    (verticalVelocity g) (deaths g) (level g) (livesText g) (levelsText g)
    (lastSpawnPos g) (gameOverText g) (sceneRect g).

Definition setGameOverText (g : GameView) (t : option string) : GameView :=
  mkGameView (playerPos g) (winCircle g) (redTriangles g) (platforms g)
    (keysPressed g) (verticalVelocity g) (deaths g) (level g) (livesText g)
    (levelsText g) (lastSpawnPos g) t (sceneRect g).

(** What a level is made of, as [generateLevel] lays it out. *)
Record Layout := mkLayout {
  spawnPos : QPointF;
  goal : QRectF;
  layoutPlatforms : list QRectF;
  layoutTriangles : list QPolygonF
}.

(** [Player::Player]: [setRect(0, 0, 20, 20)]. *)
Definition playerItemRect : QRectF := mkRect 0 0 20 20.

(** [QString::arg(int)]. *)
Definition arg (n : Z) : string := NilZero.string_of_int (Z.to_int n).

(** [GameView::updateHUD]. *)
Definition updateHUD (g : GameView) : GameView :=
  mkGameView (playerPos g) (winCircle g) (redTriangles g) (platforms g)
    (keysPressed g) (verticalVelocity g) (deaths g) (level g)
    ("Lives left: " ++ arg (10 - deaths g))%string
    ("Levels won: " ++ arg (level g))%string
    (lastSpawnPos g) (gameOverText g) (sceneRect g).

Definition newline : string := String (Ascii.ascii_of_nat 10) EmptyString.

(** [GameView::showGameOver]. *)
Definition showGameOver (g : GameView) : GameView :=
  setGameOverText g
    (Some ("Game Over!" ++ newline ++ "You passed " ++ arg (level g) ++ " levels.")%string).

(** ** Level generation *)

Definition numPlatforms : nat := 14.

(** The [do ... while] that places the goal: two draws per round, until
    the goal is 150 or more away from the spawn point. *)
Fixpoint sampleWinPos (spawn : QPointF) (sceneBounds : QRectF) (draws : list Q)
  : option (QPointF * list Q) :=
  match draws with
  | u1 :: u2 :: rest =>
      let winPos := mkPoint (u1 * width sceneBounds) (u2 * (height sceneBounds / 2)) in
      if Qltb (lengthSquared spawn winPos) (150 * 150)
      then sampleWinPos spawn sceneBounds rest
      else Some (winPos, rest)
  | _ => None
  end.

(** The test of the inner [do ... while] of the platform loop. *)
Definition tooCloseToSpawn (spawn : QPointF) (x y : Q) : bool :=
  Qltb (qAbs (x - px spawn)) 100 && Qltb (qAbs (y - py spawn)) 80.

(** The [do ... while] that places one path platform: one draw per
    round. *)
Fixpoint samplePlatformX (spawn : QPointF) (sceneBounds : QRectF) (y : Q)
  (draws : list Q) : option (Q * list Q) :=
  match draws with
  | u :: rest =>
      let x := u * (width sceneBounds - 80) in
      if tooCloseToSpawn spawn x y
      then samplePlatformX spawn sceneBounds y rest
      else Some (x, rest)
  | [] => None
  end.

Definition spike (x y : Q) (spikeOffset : Z) : QPolygonF :=
  [ mkPoint (x + inject_Z spikeOffset + 10) (y - 10);
    mkPoint (x + inject_Z spikeOffset) y;
    mkPoint (x + inject_Z spikeOffset + 20) y ].

(** The body of the platform loop, for [n] more rounds from index [i];
    the platforms and the spikes come out in the order the loop appends
    them. *)
Fixpoint pathPlatforms (n : nat) (i : Z) (spawn : QPointF) (stepY : Q)
  (sceneBounds : QRectF) : Gen (list QRectF * list QPolygonF) :=
  match n with
  | O => ret ([], [])
  | S n' =>
      let y := py spawn - inject_Z i * stepY in
      x <- samplePlatformX spawn sceneBounds y ;;
      chance <- boundedInt 0 100 ;;
      tris <- (if (chance <? 40)%Z
               then spikeOffset <- boundedInt 10 70 ;; ret [spike x y spikeOffset]
               else ret []) ;;
      ' (ps, ts) <- pathPlatforms n' (i + 1)%Z spawn stepY sceneBounds ;;
      ret (mkRect x y 80 10 :: ps, tris ++ ts)
  end.

(** The loop that adds the platforms near the goal. *)
Fixpoint safePlatformsLoop (n : nat) (winPos : QPointF) (sceneBounds : QRectF)
  : Gen (list QRectF) :=
  match n with
  | O => ret []
  | S n' =>
      dx <- boundedInt (-60) 60 ;;
      dy <- boundedInt 0 40 ;;
      let px0 := px winPos + inject_Z dx in
      let py0 := py winPos + 40 + inject_Z dy in
      let px1 := qBound 0 px0 (width sceneBounds - 80) in
      let py1 := qBound 0 py0 (height sceneBounds - 10) in
      ps <- safePlatformsLoop n' winPos sceneBounds ;;
      ret (mkRect px1 py1 80 10 :: ps)
  end.

(** The first branch of [generateLevel]: level 0, or no spawn point yet. *)
Definition bootstrapLayout (sceneBounds : QRectF) : Layout :=
  let spawn := mkPoint (width sceneBounds / 2)
                       (height sceneBounds - height playerItemRect) in
  mkLayout spawn
    (mkRect (width sceneBounds / 2 - 100) (height sceneBounds - 50) 30 30)
    [ mkRect (px spawn - 40) (py spawn + 20) 100 10 ]
    [].

(** The second branch: a goal far from the spawn point, fourteen path
    platforms from the spawn height to the goal height, two or three
    platforms near the goal. *)
Definition randomLayout (spawn : QPointF) (sceneBounds : QRectF) : Gen Layout :=
  winPos <- sampleWinPos spawn sceneBounds ;;
  let stepY := (py spawn - py winPos) / inject_Z (Z.of_nat numPlatforms) in
  ' (path, tris) <- pathPlatforms numPlatforms 0 spawn stepY sceneBounds ;;
  safePlatforms <- boundedInt 2 4 ;;
  safe <- safePlatformsLoop (Z.to_nat safePlatforms) winPos sceneBounds ;;
  ret (mkLayout spawn (mkRect (px winPos) (py winPos) 30 30) (path ++ safe) tris).

Definition isBootstrap (g : GameView) : bool :=
  (level g =? 0)%Z || isNull (lastSpawnPos g).

Definition layoutFor (g : GameView) : Gen Layout :=
  if isBootstrap g then ret (bootstrapLayout (sceneRect g))
  else randomLayout (lastSpawnPos g) (sceneRect g).

(** [GameView::generateLevel]: the old goal, spikes, platforms and game
    over text go; the new layout comes; the player is put on the spawn
    point and the HUD is redrawn. *)
Definition generateLevel (g : GameView) : Gen GameView :=
  lay <- layoutFor g ;;
  ret (updateHUD
         (mkGameView (spawnPos lay) (Some (goal lay)) (layoutTriangles lay)
            (layoutPlatforms lay) (keysPressed g) (verticalVelocity g)
            (deaths g) (level g) (livesText g) (levelsText g)
            (if isBootstrap g then spawnPos lay else lastSpawnPos g)
            None (sceneRect g))).

(** ** The tick *)

(** [Motion] holds the locals of [updatePosition] that the physics part
    rewrites: [nextPos], the member [verticalVelocity] and [onGround]. *)
Record Motion := mkMotion { nextPos : QPointF; velocity : Z; onGround : bool }.

Section Tick.

(** Half the width of the pen of a rectangle item: Qt's
    [QGraphicsRectItem::boundingRect] grows [rect()] by it on every side
    when it is positive.  The program never sets a pen, so this is the
    default pen of the Qt version it is built with. *)
Variable halfpw : Q.

(** [player->collidesWithItem(winCircle)] and
    [player->collidesWithItem(tri)]: Qt's test of the player's shape, at
    the player's position, against an ellipse and against a polygon. *)
Variable collidesWithEllipse : QPointF -> QRectF -> bool.
Variable collidesWithPolygon : QPointF -> QPolygonF -> bool.

(** [QGraphicsRectItem::boundingRect]; no item of the game is moved or
    transformed after it is built, the player apart, so this is
    [sceneBoundingRect] too. *)
Definition boundingRect (rect : QRectF) : QRectF :=
  if Qltb 0 halfpw then adjusted rect (- halfpw) (- halfpw) halfpw halfpw else rect.

Definition sceneBoundingRect (platform : QRectF) : QRectF := boundingRect platform.

(** [QRectF playerRect = player->boundingRect()]. *)
Definition playerRect : QRectF := boundingRect playerItemRect.

(** [collidesWithItem] answers false for a null item. *)
Definition collidesWithGoal (pos : QPointF) (c : option QRectF) : bool :=
  match c with
  | Some e => collidesWithEllipse pos e
  | None => false
  end.

(** Lines 242-253: the held direction keys move [currentPos], gravity
    takes one from the velocity, and [nextPos] is [currentPos] moved by
    the new velocity. *)
Definition moveSideways (keys : QSet) (pos : QPointF) : QPointF :=
  let pos1 := if contains keys Key_D then setX pos (px pos + 7) else pos in
  if contains keys Key_A then setX pos1 (px pos1 - 7) else pos1.

Definition fall (currentPos : QPointF) (v : Z) : Motion :=
  let v' := (v - 1)%Z in
  mkMotion (setY currentPos (py currentPos - inject_Z v')) v' false.

(** The condition of the [if] in the platform loop. *)
Definition landingTest (currentPos : QPointF) (m : Motion) (platform : QRectF) : bool :=
  let platRect := sceneBoundingRect platform in
  let playerNextRect := rectAt (nextPos m) (size playerRect) in
  intersects playerNextRect platRect
  && (velocity m <=? 0)%Z
  && Qle_bool (py currentPos + height playerRect) (top platRect).

Definition landOn (m : Motion) (platform : QRectF) : Motion :=
  mkMotion (setY (nextPos m) (top (sceneBoundingRect platform) - height playerRect))
           0 true.

(** Lines 255-270: the loop over the platforms, left at the first
    platform that passes the test. *)
Fixpoint landing (plats : list QRectF) (currentPos : QPointF) (m : Motion) : Motion :=
  match plats with
  | [] => m
  | platform :: rest =>
      if landingTest currentPos m platform then landOn m platform
      else landing rest currentPos m
  end.

(** Lines 272-277. *)
Definition floorTest (sceneBounds : QRectF) (m : Motion) : bool :=
  Qgeb (py (nextPos m)) (bottom sceneBounds - height playerRect).

Definition floorClamp (sceneBounds : QRectF) (m : Motion) : Motion :=
  if floorTest sceneBounds m
  then mkMotion (setY (nextPos m) (bottom sceneBounds - height playerRect)) 0 true
  else m.

(** Lines 279-282. *)
Definition jump (keys : QSet) (m : Motion) : Motion :=
  if contains keys Key_W && onGround m
  then mkMotion (nextPos m) 20 (onGround m)
  else m.

(** Line 285. *)
Definition wallClamp (sceneBounds : QRectF) (m : Motion) : Motion :=
  mkMotion
    (setX (nextPos m)
       (qBound (left sceneBounds) (px (nextPos m))
               (right sceneBounds - width playerRect)))
    (velocity m) (onGround m).

(** [currentPos] after lines 247-248, the motion after line 253
    ([tentative]), after the platform loop ([landed]) and after the floor
    test ([grounded]), when [onGround] has its final value. *)
Definition currentPosOf (g : GameView) : QPointF :=
  moveSideways (keysPressed g) (playerPos g).

Definition tentative (g : GameView) : Motion :=
  fall (currentPosOf g) (verticalVelocity g).

Definition landed (g : GameView) : Motion :=
  landing (platforms g) (currentPosOf g) (tentative g).

Definition grounded (g : GameView) : Motion :=
  floorClamp (sceneRect g) (landed g).

Definition resolve (g : GameView) : Motion :=
  wallClamp (sceneRect g) (jump (keysPressed g) (grounded g)).

(** Lines 242-286: the physics part of the tick, up to
    [player->setPos(nextPos)]. *)
Definition physics (g : GameView) : GameView :=
  let m := resolve g in
  setPos (setVerticalVelocity g (velocity m)) (nextPos m).

(** Lines 288-292. *)
Definition checkWin (g : GameView) : Gen GameView :=
  if collidesWithGoal (playerPos g) (winCircle g)
  then generateLevel (setLevel g (level g + 1))
  else ret g.

(** Lines 294-301: the loop over the spikes, left at the first hit. *)
Fixpoint hitSpike (tris : list QPolygonF) (g : GameView) : GameView :=
  match tris with
  | [] => g
  | tri :: rest =>
      if collidesWithPolygon (playerPos g) tri
      then setPos (setDeaths g (deaths g + 1)) (lastSpawnPos g)
      else hitSpike rest g
  end.

Definition checkSpikes (g : GameView) : GameView := hitSpike (redTriangles g) g.

Definition gameOver (g : GameView) : bool := (10 <=? deaths g)%Z.

(** [GameView::updatePosition]. *)
Definition updatePosition (g : GameView) : Gen GameView :=
  if (deaths g >=? 10)%Z then
    ret (match gameOverText g with
         | None => showGameOver g
         | Some _ => g
         end)
  else
    g' <- checkWin (physics g) ;;
    ret (updateHUD (checkSpikes g')).

(** ** Events *)

Inductive Event :=
| KeyPress (key : Z)
| KeyRelease (key : Z)
| Resize (viewportWidth viewportHeight : Z)
| Timeout.

Definition keyPressEvent (key : Z) (g : GameView) : GameView :=
  setKeysPressed g (insert (keysPressed g) key).

Definition keyReleaseEvent (key : Z) (g : GameView) : GameView :=
  setKeysPressed g (remove (keysPressed g) key).

Definition resizeEvent (vw vh : Z) (g : GameView) : GameView :=
  setSceneRect g (mkRect 0 0 (inject_Z vw) (inject_Z vh)).

Definition handle (e : Event) (g : GameView) : Gen GameView :=
  match e with
  | KeyPress k => ret (keyPressEvent k g)
  | KeyRelease k => ret (keyReleaseEvent k g)
  | Resize vw vh => ret (resizeEvent vw vh g)
  | Timeout => updatePosition g
  end.

Fixpoint run (es : list Event) (g : GameView) : Gen GameView :=
  match es with
  | [] => ret g
  | e :: es' => g' <- handle e g ;; run es' g'
  end.

(** [GameView::GameView] on the scene that [main] builds. *)
Definition blank (scene : QRectF) : GameView :=
  mkGameView (mkPoint 0 0) None [] [] [] 0 0 0 EmptyString EmptyString
    (mkPoint 0 0) None scene.

Definition newGameView (scene : QRectF) : Gen GameView := generateLevel (blank scene).

Definition mainScene : QRectF := mkRect 0 0 1000 500.

(** ** Notions used by the properties *)

(** The landing test of the platform loop, as a proposition. *)
Definition landsOn (currentPos : QPointF) (m : Motion) (platform : QRectF) : Prop :=
  intersects (rectAt (nextPos m) (size playerRect)) (sceneBoundingRect platform) = true
  /\ (velocity m <= 0)%Z
  /\ py currentPos + height playerRect <= top (sceneBoundingRect platform).

(** Neither direction key is held. *)
Definition noHorizontalInput (g : GameView) : Prop :=
  contains (keysPressed g) Key_A = false /\ contains (keysPressed g) Key_D = false.

(** The player stands still on platform [p]: [p] is a platform of the
    level and has a positive size, the player's bottom edge is on its top
    edge, the player's box and the platform overlap horizontally, and the
    vertical velocity is zero. *)
Definition atRestOn (g : GameView) (p : QRectF) : Prop :=
  In p (platforms g)
  /\ 0 < w p /\ 0 < h p
  /\ py (playerPos g) + height playerRect == top (sceneBoundingRect p)
  /\ left (sceneBoundingRect p) < px (playerPos g) + width playerRect
  /\ px (playerPos g) < right (sceneBoundingRect p)
  /\ verticalVelocity g = 0%Z.

(** Any number of physics ticks leaves the position and the velocity as
    they are. *)
Definition staysPut (g : GameView) : Prop :=
  forall n : nat,
    px (playerPos (Nat.iter n physics g)) == px (playerPos g)
    /\ py (playerPos (Nat.iter n physics g)) == py (playerPos g)
    /\ verticalVelocity (Nat.iter n physics g) = verticalVelocity g.

(** The player is between the walls. *)
Definition betweenWalls (g : GameView) : Prop :=
  left (sceneRect g) <= px (playerPos g)
  /\ px (playerPos g) <= right (sceneRect g) - width playerRect.

(** Every platform that passes the landing test of the coming tick has
    its top edge where [p] has it. *)
Definition landsLevelWith (g : GameView) (p : QRectF) : Prop :=
  forall q, In q (platforms g) ->
    landsOn (currentPosOf g) (tentative g) q ->
    top (sceneBoundingRect q) == top (sceneBoundingRect p).

(** The margin [boundingRect] adds on every side. *)
Definition margin : Q := if Qltb 0 halfpw then halfpw else 0.

(** The point [(x, y)] is less than [halfW] to the side and less than
    [halfH] up or down from [c]. *)
Definition withinBox (c : QPointF) (halfW halfH : Q) (x y : Q) : Prop :=
  Qabs (x - px c) < halfW /\ Qabs (y - py c) < halfH.

(** The scene the program builds always starts at the origin. *)
Definition sceneAtOrigin (g : GameView) : Prop :=
  xp (sceneRect g) == 0 /\ yp (sceneRect g) == 0.

(** The facts about a player at rest that one tick needs and gives back. *)
Definition settled (g : GameView) (p : QRectF) : Prop :=
  atRestOn g p /\ noHorizontalInput g
  /\ contains (keysPressed g) Key_W = false
  /\ betweenWalls g
  /\ top (sceneBoundingRect p) <= bottom (sceneRect g)
  /\ landsLevelWith g p.

(** What is left of the draws is a tail of what was there. *)
Definition tailOf (rest draws : list Q) : Prop := exists used, draws = used ++ rest.

(** A path platform: 80 by 10, outside the box around the spawn point. *)
Definition pathPlatform (spawn : QPointF) (p : QRectF) : Prop :=
  w p = 80 /\ h p = 10 /\ ~ withinBox spawn 100 80 (xp p) (yp p).

(** Some spike of the level collides with the player where it stands. *)
Definition onSpike (g : GameView) : bool :=
  existsb (collidesWithPolygon (playerPos g)) (redTriangles g).

(** [g] shows the session as [g0] left it: same counters, same player,
    same HUD, same level, and the game is over. *)
Definition frozenAs (g0 g : GameView) : Prop :=
  deaths g = deaths g0 /\ level g = level g0
  /\ playerPos g = playerPos g0
  /\ verticalVelocity g = verticalVelocity g0
  /\ livesText g = livesText g0 /\ levelsText g = levelsText g0
  /\ platforms g = platforms g0 /\ redTriangles g = redTriangles g0
  /\ winCircle g = winCircle g0 /\ lastSpawnPos g = lastSpawnPos g0
  /\ gameOver g = true.

(** The text [showGameOver] puts on the screen. *)
Definition gameOverMessage (g : GameView) : string :=
  ("Game Over!" ++ newline ++ "You passed " ++ arg (level g) ++ " levels.")%string.

(** The game-over text once a tick has run in a finished game: the text
    that was already there, or else the message of [showGameOver]. *)
Definition shownText (g : GameView) : string :=
  match gameOverText g with
  | Some t => t
  | None => gameOverMessage g
  end.

(** The invariant of a finished game that started from [g0]. *)
Definition finished (g0 g : GameView) : Prop :=
  frozenAs g0 g
  /\ (gameOverText g = gameOverText g0 \/ gameOverText g = Some (shownText g0)).



(** ** Sample data *)

(** A stand-in for Qt's shape test, to run the model on: the player's 20
    by 20 square against the bounding box of the other shape. *)
Definition boxCollidesEllipse (pos : QPointF) (e : QRectF) : bool :=
  intersects (rectAt pos (mkSize 20 20)) e.

Definition polygonBox (poly : QPolygonF) : QRectF :=
  match poly with
  | [] => mkRect 0 0 0 0
  | p :: ps =>
      let x0 := fold_left qMin (map px ps) (px p) in
      let x1 := fold_left qMax (map px ps) (px p) in
      let y0 := fold_left qMin (map py ps) (py p) in
      let y1 := fold_left qMax (map py ps) (py p) in
      mkRect x0 y0 (x1 - x0) (y1 - y0)
  end.

Definition boxCollidesPolygon (pos : QPointF) (poly : QPolygonF) : bool :=
  intersects (rectAt pos (mkSize 20 20)) (polygonBox poly).

(** Half the width of Qt's default pen. *)
Definition defaultPen : Q := 1 # 2.

(** A view of the scene of [main] with the goal of the first level. *)
Definition sampleView (pos : QPointF) (plats : list QRectF)
  (tris : list QPolygonF) (keys : QSet) (v d : Z) : GameView :=
  mkGameView pos (Some (mkRect 400 450 30 30)) tris plats keys v d 0
    EmptyString EmptyString (mkPoint 500 480) None mainScene.

Definition ledgeFar : QRectF := mkRect 300 300 80 10.
Definition ledge : QRectF := mkRect 100 300 80 10.
Definition ledgeBelow : QRectF := mkRect 100 (601 # 2) 80 10.
Definition basePlatform : QRectF := mkRect 460 500 100 10.

(** Falling onto [ledge], with two more platforms around. *)
Definition descending : GameView :=
  sampleView (mkPoint 120 275) [ledgeFar; ledge; ledgeBelow] [] [] (-5) 0.

(** In the air, going up. *)
Definition rising : GameView :=
  sampleView (mkPoint 120 100) [ledgeFar; ledge] [] [] 3 0.

(** At rest on [ledge] under the default pen, no key held; then with the
    jump key held; then with a platform half a unit lower listed first. *)
Definition standing : GameView :=
  sampleView (mkPoint 120 (557 # 2)) [ledgeFar; ledge] [] [] 0 0.

Definition standingJumpHeld : GameView :=
  sampleView (mkPoint 120 (557 # 2)) [ledgeFar; ledge] [] [Key_W] 0 0.

Definition standingAboveStep : GameView :=
  sampleView (mkPoint 120 (557 # 2)) [ledgeBelow; ledge] [] [] 0 0.

(** At rest on [ledge] when the pen has no width. *)
Definition standingThinPen : GameView :=
  sampleView (mkPoint 120 280) [ledgeFar; ledge] [] [Key_W] 0 0.

(** On the spawn point of the first level, with a spike there and [d]
    deaths so far. *)
Definition onTheSpike (d : Z) : GameView :=
  sampleView (mkPoint 500 480) [basePlatform] [spike 460 500 40] [] 0 d.

(** Next to the goal of the first level, with a spike on the way. *)
Definition reachingGoal : GameView :=
  sampleView (mkPoint 420 470) [basePlatform] [spike 380 500 40] [] 0 0.

Definition sampleDraws : list Q :=
  [ 1#2; 1#4; 1#2; 1#10; 1#5; 1#2; 41#100; 19#100; 1#2; 83#100; 3#50; 9#100;
    17#25; 3#25; 23#50; 37#50; 7#100; 16#25; 27#100; 1#25; 11#100; 11#20;
    53#100; 2#25; 3#10; 11#100; 7#10; 27#50; 7#100; 18#25; 3#20; 7#25; 4#5;
    4#5; 37#50; 7#100; 73#100; 37#50; 1#2; 3#50; 7#25; 1#20; 71#100; 17#100;
    37#100; 53#100; 9#50 ].

(** The first level, and the game as it stands when the first level is
    won. *)
Definition firstLevel : GameView :=
  updateHUD
    (mkGameView (mkPoint (1000 / 2) (500 - 20))
       (Some (mkRect (1000 / 2 - 100) (500 - 50) 30 30)) []
       [mkRect (1000 / 2 - 40) (500 - 20 + 20) 100 10] [] 0 0 0
       EmptyString EmptyString (mkPoint (1000 / 2) (500 - 20)) None mainScene).

Definition firstLevelWon : GameView := setLevel firstLevel 1.

(** The second level that [sampleDraws] gives. *)
Definition secondLevel : option (GameView * list Q) :=
  Eval vm_compute in generateLevel firstLevelWon sampleDraws.

Definition secondLevelView : GameView :=
  match secondLevel with
  | Some (g, _) => g
  | None => firstLevelWon
  end.

Definition secondLevelRest : list Q :=
  match secondLevel with
  | Some (_, rest) => rest
  | None => []
  end.

(** At rest on a platform that sticks out of the left wall, and at rest
    on a platform below the floor line. *)
Definition ledgeInWall : QRectF := mkRect (-40) 300 80 10.
Definition ledgeUnderFloor : QRectF := mkRect 100 520 80 10.

Definition standingInWall : GameView :=
  sampleView (mkPoint (-10) (557 # 2)) [ledgeInWall] [] [] 0 0.

Definition standingUnderFloor : GameView :=
  sampleView (mkPoint 120 (997 # 2)) [ledgeUnderFloor] [] [] 0 0.

(** ** Notions used by the further properties *)

(** What the held direction keys add to the player's x in one tick. *)
Definition sidewaysShift (keys : QSet) : Q :=
  (if contains keys Key_D then 7 else 0) - (if contains keys Key_A then 7 else 0).

(** The height gained in [k] ticks by a player that starts them with
    velocity [v]: [(v - 1) + (v - 2) + ... + (v - k)]. *)
Definition rise (v : Z) (k : nat) : Q :=
  inject_Z (Z.of_nat k) * inject_Z v
  - inject_Z (Z.of_nat k) * (inject_Z (Z.of_nat k) + 1) / 2.

(** The player is on the floor line or above it. *)
Definition aboveFloor (g : GameView) : Prop :=
  py (playerPos g) <= bottom (sceneRect g) - height playerRect.


(** The HUD shows the counters: the lives left are 10 less the deaths. *)
Definition hudInSync (g : GameView) : Prop :=
  livesText g = ("Lives left: " ++ arg (10 - deaths g))%string
  /\ levelsText g = ("Levels won: " ++ arg (level g))%string.

(** The number of ticks among the events. *)
Fixpoint ticks (es : list Event) : Z :=
  match es with
  | [] => 0
  | Timeout :: es' => 1 + ticks es'
  | _ :: es' => ticks es'
  end.

(** The scene and the held keys as the resize and key events alone leave
    them. *)
Definition sceneAfter (r : QRectF) (e : Event) : QRectF :=
  match e with
  | Resize vw vh => mkRect 0 0 (inject_Z vw) (inject_Z vh)
  | _ => r
  end.

Definition keysAfter (s : QSet) (e : Event) : QSet :=
  match e with
  | KeyPress k => insert s k
  | KeyRelease k => remove s k
  | _ => s
  end.

(** [P i a] for the first element, [P (i + 1) a'] for the second, and so
    on. *)
Fixpoint eachFrom {A : Type} (P : Z -> A -> Prop) (i : Z) (l : list A) : Prop :=
  match l with
  | [] => True
  | a :: l' => P i a /\ eachFrom P (i + 1)%Z l'
  end.

(** The platform of band [i] on the way from the spawn point to the goal:
    80 by 10, at the band's height, at a drawn place of the scene's width
    less 80. *)
Definition bandPlatform (spawn : QPointF) (stepY : Q) (sceneBounds : QRectF)
  (draws : list Q) (i : Z) (p : QRectF) : Prop :=
  w p = 80 /\ h p = 10
  /\ yp p = py spawn - inject_Z i * stepY
  /\ exists u, In u draws /\ xp p = u * (width sceneBounds - 80).

(** A spike standing on one of the platforms [ps]: its base is on the
    platform's top line, from [spikeOffset] to [spikeOffset + 20] right
    of the platform's left edge, with [spikeOffset] from 10 to 69, and
    its tip is 10 above the middle of the base. *)
Definition spikeOn (ps : list QRectF) (tri : QPolygonF) : Prop :=
  exists p spikeOffset,
    In p ps /\ (10 <= spikeOffset < 70)%Z
    /\ tri = [ mkPoint (xp p + inject_Z spikeOffset + 10) (yp p - 10);
               mkPoint (xp p + inject_Z spikeOffset) (yp p);
               mkPoint (xp p + inject_Z spikeOffset + 20) (yp p) ].

(** A platform near the goal: 80 by 10, from 60 left to 59 right of the
    goal's corner and from 40 to 79 below it, then bounded to the scene. *)
Definition safePlatform (winPos : QPointF) (sceneBounds : QRectF) (p : QRectF) : Prop :=
  w p = 80 /\ h p = 10
  /\ exists dx dy : Z,
       (-60 <= dx < 60)%Z /\ (0 <= dy < 40)%Z
       /\ xp p = qBound 0 (px winPos + inject_Z dx) (width sceneBounds - 80)
       /\ yp p = qBound 0 (py winPos + 40 + inject_Z dy) (height sceneBounds - 10).


(** Every platform of the level has a positive size. *)
Definition solidPlatforms (g : GameView) : Prop :=
  Forall (fun p => 0 < w p /\ 0 < h p) (platforms g).

(** *** More sample data *)

(** Under [ledge], going up fast enough to cross it. *)
Definition risingUnderLedge : GameView :=
  sampleView (mkPoint 120 315) [ledge] [] [Key_A] 10 0.

(** On [ledge] just after the tick that started a jump. *)
Definition jumping : GameView :=
  sampleView (mkPoint 120 (557 # 2)) [ledgeFar; ledge] [] [Key_W] 20 0.

(** A walk to the right, a resize, and a tick after it. *)
Definition sampleEvents : list Event :=
  [KeyPress Key_D; Timeout; Timeout; KeyRelease Key_D; Resize 800 400; Timeout].

(** The first level won in a scene 150 wide. *)
Definition narrowView : GameView :=
  mkGameView (mkPoint 75 480) (Some (mkRect (-25) 450 30 30)) []
    [mkRect 35 500 100 10] [] 0 0 1 EmptyString EmptyString
    (mkPoint 75 480) None (mkRect 0 0 150 500).


(** In the air at rest, 100 above [ledge] and far above the floor. *)
Definition hovering : GameView :=
  sampleView (mkPoint 120 (357 # 2)) [ledgeFar; ledge] [] [Key_D] 0 0.

(** ** Comparisons *)

Lemma Qltb_true (x y : Q) : Qltb x y = true <-> x < y.
Proof.
  unfold Qltb. rewrite negb_true_iff, <- not_true_iff_false, Qle_bool_iff.
  split; [apply Qnot_le_lt | apply Qlt_not_le].
Qed.

Lemma Qltb_false (x y : Q) : Qltb x y = false <-> y <= x.
Proof.
  unfold Qltb. rewrite negb_false_iff. apply Qle_bool_iff.
Qed.

Lemma Qgeb_true (x y : Q) : Qgeb x y = true <-> y <= x.
Proof. apply Qle_bool_iff. Qed.

Lemma Qgeb_false (x y : Q) : Qgeb x y = false <-> x < y.
Proof.
  unfold Qgeb. rewrite <- not_true_iff_false, Qle_bool_iff.
  split; [apply Qnot_le_lt | apply Qlt_not_le].
Qed.

Lemma landingTest_landsOn currentPos m platform :
  landingTest currentPos m platform = true <-> landsOn currentPos m platform.
Proof.
  clear collidesWithEllipse collidesWithPolygon.
  unfold landingTest, landsOn.
  rewrite !andb_true_iff, Z.leb_le, Qle_bool_iff. tauto.
Qed.

(** ** The platform loop *)

Lemma landing_skip before rest currentPos m :
  (forall q, In q before -> ~ landsOn currentPos m q) ->
  landing (before ++ rest) currentPos m = landing rest currentPos m.
Proof.
  induction before as [| q before IH]; intros Hnone; simpl.
  - reflexivity.
  - destruct (landingTest currentPos m q) eqn:Hq.
    + exfalso. apply (Hnone q); [now left | now apply landingTest_landsOn].
    + apply IH. intros q' Hin. apply Hnone. now right.
Qed.

Lemma landing_hit p rest currentPos m :
  landsOn currentPos m p ->
  landing (p :: rest) currentPos m = landOn m p.
Proof.
  intros Hp. simpl. apply landingTest_landsOn in Hp. now rewrite Hp.
Qed.

Lemma landing_none plats currentPos m :
  (forall q, In q plats -> ~ landsOn currentPos m q) ->
  landing plats currentPos m = m.
Proof.
  intros Hnone. rewrite <- (app_nil_r plats). now rewrite landing_skip.
Qed.

(** Either no platform passes the test and the loop changes nothing, or
    the platforms split at the first one that passes. *)
Lemma landing_cases plats currentPos m :
  (landing plats currentPos m = m /\
   forall q, In q plats -> ~ landsOn currentPos m q)
  \/ exists before p after,
       plats = before ++ p :: after
       /\ (forall q, In q before -> ~ landsOn currentPos m q)
       /\ landsOn currentPos m p
       /\ landing plats currentPos m = landOn m p.
Proof.
  induction plats as [| q plats IH]; simpl.
  - left. split; [reflexivity | intros q []].
  - destruct (landingTest currentPos m q) eqn:Hq.
    + right. exists [], q, plats.
      split; [reflexivity |]. split; [intros q' [] |].
      split; [now apply landingTest_landsOn | reflexivity].
    + assert (Hnq : ~ landsOn currentPos m q).
      { rewrite <- landingTest_landsOn, Hq. discriminate. }
      destruct IH as [[Heq Hnone] | (before & p & after & Hsplit & Hnone & Hp & Heq)].
      * left. split; [exact Heq |]. intros q' [<- | Hin]; auto.
      * right. exists (q :: before), p, after.
        split; [simpl; now rewrite Hsplit |].
        split; [intros q' [<- | Hin]; auto |].
        split; assumption.
Qed.

Lemma physics_pos g : playerPos (physics g) = nextPos (resolve g).
Proof. reflexivity. Qed.

Lemma physics_velocity g : verticalVelocity (physics g) = velocity (resolve g).
Proof. reflexivity. Qed.

Lemma resolve_py g : py (nextPos (resolve g)) = py (nextPos (grounded g)).
Proof.
  unfold resolve, wallClamp, jump. simpl.
  now destruct (contains (keysPressed g) Key_W && onGround (grounded g)).
Qed.

Lemma resolve_velocity g :
  velocity (resolve g) =
  if contains (keysPressed g) Key_W && onGround (grounded g) then 20%Z
  else velocity (grounded g).
Proof.
  unfold resolve, wallClamp, jump. simpl.
  now destruct (contains (keysPressed g) Key_W && onGround (grounded g)).
Qed.

(** C1. In a tick, when the platforms before [p] in the list all fail the
    landing test and [p] passes it (the tentative next box meets [p]'s
    rectangle, the velocity is at most 0 and the player's current bottom
    edge is at or above [p]'s top edge), the platform loop puts the
    player's bottom edge on [p]'s top edge, zeroes the velocity and sets
    on-ground, whatever platforms come after [p].  The position is the one
    the tick commits unless the floor test fires, and the velocity is the
    one it commits unless a jump starts. *)
Theorem landing_first_match (g : GameView) (before after : list QRectF) (p : QRectF) :
  platforms g = before ++ p :: after ->
  (forall q, In q before -> ~ landsOn (currentPosOf g) (tentative g) q) ->
  landsOn (currentPosOf g) (tentative g) p ->
  nextPos (landed g)
    = setY (nextPos (tentative g)) (top (sceneBoundingRect p) - height playerRect)
  /\ py (nextPos (landed g)) + height playerRect == top (sceneBoundingRect p)
  /\ velocity (landed g) = 0%Z
  /\ onGround (landed g) = true
  /\ (forall after',
        landing (before ++ p :: after') (currentPosOf g) (tentative g) = landed g)
  /\ (floorTest (sceneRect g) (landed g) = false ->
        py (playerPos (physics g)) + height playerRect == top (sceneBoundingRect p))
  /\ (contains (keysPressed g) Key_W = false -> verticalVelocity (physics g) = 0%Z).
Proof.
  intros Hsplit Hnone Hp.
  assert (Hl : forall rest,
             landing (before ++ p :: rest) (currentPosOf g) (tentative g)
             = landOn (tentative g) p).
  { intros rest. rewrite landing_skip by exact Hnone. now apply landing_hit. }
  assert (Hlanded : landed g = landOn (tentative g) p).
  { unfold landed. rewrite Hsplit. apply Hl. }
  rewrite Hlanded. repeat split.
  - simpl. ring.
  - intros after'. apply Hl.
  - intros Hfloor. rewrite physics_pos, resolve_py.
    unfold grounded, floorClamp. rewrite Hlanded, Hfloor. simpl. ring.
  - intros HW. rewrite physics_velocity, resolve_velocity, HW. simpl.
    unfold grounded, floorClamp. rewrite Hlanded.
    now destruct (floorTest (sceneRect g) (landOn (tentative g) p)).
Qed.

(** ** Gravity and the jump *)

Lemma moveSideways_py keys pos : py (moveSideways keys pos) = py pos.
Proof.
  unfold moveSideways.
  destruct (contains keys Key_D), (contains keys Key_A); reflexivity.
Qed.

Lemma currentPosOf_py g : py (currentPosOf g) = py (playerPos g).
Proof. apply moveSideways_py. Qed.

Lemma tentative_velocity g : velocity (tentative g) = (verticalVelocity g - 1)%Z.
Proof. reflexivity. Qed.

Lemma tentative_py g :
  py (nextPos (tentative g)) = py (playerPos g) - inject_Z (verticalVelocity g - 1).
Proof. unfold tentative, fall. simpl. now rewrite currentPosOf_py. Qed.

(** With no landing and no floor under it, the player keeps the
    tentative motion. *)
Lemma airborne_grounded g :
  (forall q, In q (platforms g) -> ~ landsOn (currentPosOf g) (tentative g) q) ->
  floorTest (sceneRect g) (tentative g) = false ->
  grounded g = tentative g.
Proof.
  intros Hnone Hfloor. unfold grounded, landed.
  rewrite landing_none by exact Hnone.
  unfold floorClamp. now rewrite Hfloor.
Qed.

Lemma airborne_commit g :
  (forall q, In q (platforms g) -> ~ landsOn (currentPosOf g) (tentative g) q) ->
  floorTest (sceneRect g) (tentative g) = false ->
  verticalVelocity (physics g) = (verticalVelocity g - 1)%Z
  /\ py (playerPos (physics g))
     = py (playerPos g) - inject_Z (verticalVelocity g - 1).
Proof.
  intros Hnone Hfloor. pose proof (airborne_grounded g Hnone Hfloor) as Hg.
  split.
  - rewrite physics_velocity, resolve_velocity, Hg. simpl.
    now rewrite andb_false_r.
  - rewrite physics_pos, resolve_py, Hg. apply tentative_py.
Qed.

(** C3. In a tick where no platform passes the landing test and the floor
    test does not fire, the player is not on the ground, the velocity the
    tick commits is the old one minus exactly 1, whatever its value, and
    the vertical position it commits is the tentative one: the old
    position minus the new velocity.  The tentative values are these in
    every tick. *)
Theorem gravity_step (g : GameView) :
  (forall q, In q (platforms g) -> ~ landsOn (currentPosOf g) (tentative g) q) ->
  floorTest (sceneRect g) (tentative g) = false ->
  velocity (tentative g) = (verticalVelocity g - 1)%Z
  /\ py (nextPos (tentative g))
     = py (playerPos g) - inject_Z (velocity (tentative g))
  /\ onGround (grounded g) = false
  /\ verticalVelocity (physics g) = (verticalVelocity g - 1)%Z
  /\ (verticalVelocity (physics g) < verticalVelocity g)%Z
  /\ py (playerPos (physics g))
     = py (playerPos g) - inject_Z (verticalVelocity (physics g)).
Proof.
  intros Hnone Hfloor.
  destruct (airborne_commit g Hnone Hfloor) as [Hv Hy].
  split; [reflexivity |]. split; [apply tentative_py |].
  split; [now rewrite (airborne_grounded g Hnone Hfloor) |].
  split; [exact Hv |]. split; [lia |]. now rewrite Hv.
Qed.

Lemma grounded_cases g :
  (floorTest (sceneRect g) (landed g) = true
   /\ grounded g
      = mkMotion (setY (nextPos (landed g))
                       (bottom (sceneRect g) - height playerRect)) 0 true)
  \/ (floorTest (sceneRect g) (landed g) = false /\ grounded g = landed g).
Proof.
  unfold grounded, floorClamp.
  destruct (floorTest (sceneRect g) (landed g)); [left | right]; now split.
Qed.

(** The grounded position is never below the floor line. *)
Lemma grounded_above_floor g :
  onGround (grounded g) = true ->
  py (nextPos (grounded g)) <= bottom (sceneRect g) - height playerRect.
Proof.
  intros _. destruct (grounded_cases g) as [[_ ->] | [Hf ->]].
  - simpl. apply Qle_refl.
  - apply Qgeb_false in Hf. now apply Qlt_le_weak.
Qed.

(** C9. In a tick with the jump key held and the player on the ground, the
    tick commits the velocity 20 and the grounded height: the floor line
    when the floor test fired, else the top of the first platform that
    passed the landing test, minus the player's height.  The next tick,
    whatever keys are held then, commits the velocity 19 and a position 19
    higher. *)
Theorem jump_delayed (g : GameView) :
  contains (keysPressed g) Key_W = true ->
  onGround (grounded g) = true ->
  verticalVelocity (physics g) = 20%Z
  /\ py (playerPos (physics g)) = py (nextPos (grounded g))
  /\ ((floorTest (sceneRect g) (landed g) = true
       /\ py (playerPos (physics g)) = bottom (sceneRect g) - height playerRect)
      \/ (floorTest (sceneRect g) (landed g) = false
          /\ exists before p after,
               platforms g = before ++ p :: after
               /\ (forall q, In q before -> ~ landsOn (currentPosOf g) (tentative g) q)
               /\ landsOn (currentPosOf g) (tentative g) p
               /\ py (playerPos (physics g))
                  = top (sceneBoundingRect p) - height playerRect))
  /\ forall keys',
       let g1 := setKeysPressed (physics g) keys' in
       verticalVelocity (physics g1) = 19%Z
       /\ py (playerPos (physics g1)) == py (playerPos (physics g)) - 19.
Proof.
  intros HW Hog.
  assert (Hv : verticalVelocity (physics g) = 20%Z).
  { now rewrite physics_velocity, resolve_velocity, HW, Hog. }
  assert (Hy : py (playerPos (physics g)) = py (nextPos (grounded g))).
  { now rewrite physics_pos, resolve_py. }
  split; [exact Hv |]. split; [exact Hy |]. split.
  - rewrite Hy. destruct (grounded_cases g) as [[Hf Hg] | [Hf Hg]].
    + left. split; [exact Hf |]. now rewrite Hg.
    + right. split; [exact Hf |]. rewrite Hg in Hog |- *.
      unfold landed in *.
      destruct (landing_cases (platforms g) (currentPosOf g) (tentative g))
        as [[Heq _] | (before & p & after & Hsplit & Hnone & Hp & Heq)].
      * rewrite Heq in Hog. discriminate.
      * exists before, p, after. rewrite Heq. simpl. auto.
  - intros keys' g1.
    assert (Hv1 : verticalVelocity g1 = 20%Z) by exact Hv.
    assert (Hnone : forall q, In q (platforms g1) ->
                      ~ landsOn (currentPosOf g1) (tentative g1) q).
    { intros q _ (_ & Hle & _). rewrite tentative_velocity, Hv1 in Hle. lia. }
    assert (Hy1 : py (nextPos (tentative g1)) == py (playerPos (physics g)) - 19).
    { rewrite tentative_py, Hv1. reflexivity. }
    assert (Hfloor : floorTest (sceneRect g1) (tentative g1) = false).
    { apply Qgeb_false. rewrite Hy1, Hy.
      pose proof (grounded_above_floor g Hog) as Hle.
      change (sceneRect g1) with (sceneRect g). lra. }
    destruct (airborne_commit g1 Hnone Hfloor) as [Hv' Hy'].
    split; [rewrite Hv', Hv1; reflexivity |].
    rewrite Hy', Hv1. reflexivity.
Qed.

(** ** Rectangles *)

Lemma span_pos p len : 0 < len -> span p len = (p, p + len).
Proof.
  intros H. unfold span.
  now rewrite (proj2 (Qltb_false len 0) (Qlt_le_weak _ _ H)).
Qed.

(** On rectangles of positive size [intersects] is the strict overlap of
    the two extents on each axis. *)
Lemma intersects_pos r1 r2 :
  0 < w r1 -> 0 < h r1 -> 0 < w r2 -> 0 < h r2 ->
  (intersects r1 r2 = true <->
   xp r1 < xp r2 + w r2 /\ xp r2 < xp r1 + w r1 /\
   yp r1 < yp r2 + h r2 /\ yp r2 < yp r1 + h r1).
Proof.
  intros Hw1 Hh1 Hw2 Hh2. unfold intersects.
  rewrite !span_pos by assumption. unfold spansMeet. simpl.
  assert (Hne : forall a len, 0 < len -> Qeq_bool a (a + len) = false).
  { intros a len Hlen. apply not_true_iff_false. rewrite Qeq_bool_iff.
    intros E. lra. }
  rewrite !Hne by assumption.
  rewrite andb_true_iff, !negb_true_iff, !orb_false_iff, !Qgeb_false. tauto.
Qed.

Lemma spansMeet_ext a a' b :
  fst a == fst a' -> snd a == snd a' -> spansMeet a b = spansMeet a' b.
Proof.
  intros H1 H2. unfold spansMeet, Qgeb.
  rewrite (Qeqb_comp _ _ H1 _ _ H2).
  rewrite (Qleb_comp _ _ (Qeq_refl (snd b)) _ _ H1).
  rewrite (Qleb_comp _ _ H2 _ _ (Qeq_refl (fst b))).
  reflexivity.
Qed.

Lemma intersects_ext r1 r1' r2 :
  xp r1 == xp r1' -> yp r1 == yp r1' -> w r1 = w r1' -> h r1 = h r1' ->
  intersects r1 r2 = intersects r1' r2.
Proof.
  intros Hx Hy Hw Hh. unfold intersects. rewrite <- Hw, <- Hh. f_equal.
  - apply spansMeet_ext; unfold span; destruct (Qltb (w r1) 0); simpl;
      rewrite ?Hx; reflexivity.
  - apply spansMeet_ext; unfold span; destruct (Qltb (h r1) 0); simpl;
      rewrite ?Hy; reflexivity.
Qed.

Lemma landsOn_ext c c' m m' q :
  py c == py c' ->
  px (nextPos m) == px (nextPos m') -> py (nextPos m) == py (nextPos m') ->
  velocity m = velocity m' ->
  landsOn c m q -> landsOn c' m' q.
Proof.
  intros Hc Hx Hy Hv (Hi & Hle & Hab). unfold landsOn.
  rewrite <- Hv, <- Hc. split; [| now split].
  rewrite <- Hi. symmetry. now apply intersects_ext.
Qed.

(** The pen margin and the size of the boxes. *)

Lemma margin_nonneg : 0 <= margin.
Proof.
  unfold margin. destruct (Qltb 0 halfpw) eqn:H.
  - apply Qltb_true in H. now apply Qlt_le_weak.
  - apply Qle_refl.
Qed.

Lemma boundingRect_margin r :
  boundingRect r = adjusted r (- margin) (- margin) margin margin
  \/ (margin = 0 /\ boundingRect r = r).
Proof.
  unfold boundingRect, margin. destruct (Qltb 0 halfpw); auto.
Qed.

Lemma boundingRect_geometry r :
  xp (boundingRect r) == xp r - margin
  /\ yp (boundingRect r) == yp r - margin
  /\ w (boundingRect r) == w r + 2 * margin
  /\ h (boundingRect r) == h r + 2 * margin.
Proof.
  destruct (boundingRect_margin r) as [-> | [-> ->]]; simpl;
    repeat split; ring.
Qed.

Lemma playerRect_size :
  width playerRect == 20 + 2 * margin /\ height playerRect == 20 + 2 * margin.
Proof.
  destruct (boundingRect_geometry playerItemRect) as (_ & _ & Hw & Hh).
  unfold width, height, playerRect. rewrite Hw, Hh. simpl. split; ring.
Qed.

Lemma qBound_inside lo v hi : lo <= v -> v <= hi -> qBound lo v hi == v.
Proof.
  intros Hlo Hhi. unfold qBound, qMin, qMax.
  destruct (Qltb hi v) eqn:H1.
  - apply Qltb_true in H1. lra.
  - destruct (Qltb lo v) eqn:H2; [reflexivity |].
    apply Qltb_false in H2. lra.
Qed.

(** ** Standing on a platform *)

Lemma moveSideways_idle keys pos :
  contains keys Key_A = false -> contains keys Key_D = false ->
  moveSideways keys pos = pos.
Proof. intros HA HD. unfold moveSideways. now rewrite HD, HA. Qed.

Lemma rest_lands g p :
  atRestOn g p -> noHorizontalInput g ->
  landsOn (currentPosOf g) (tentative g) p.
Proof.
  intros (_ & Hw & Hh & Hy & Hl & Hr & Hv) (HA & HD).
  assert (Hcur : currentPosOf g = playerPos g) by now apply moveSideways_idle.
  unfold landsOn, tentative, fall. rewrite Hcur, Hv.
  simpl velocity. simpl nextPos.
  destruct playerRect_size as (Hpw & Hph). pose proof margin_nonneg as Hm.
  unfold width, height in Hpw, Hph.
  destruct (boundingRect_geometry p) as (Hbx & Hby & Hbw & Hbh).
  unfold sceneBoundingRect, left, right, top, width, height in *.
  split; [| split; [lia | rewrite Hy; apply Qle_refl]].
  apply intersects_pos; simpl; try lra.
  change (inject_Z (-1)) with (-1 # 1). lra.
Qed.

Lemma settled_step g p :
  settled g p ->
  settled (physics g) p
  /\ px (playerPos (physics g)) == px (playerPos g)
  /\ py (playerPos (physics g)) == py (playerPos g)
  /\ verticalVelocity (physics g) = 0%Z.
Proof.
  intros (Hrest & Hin & HW & (Hwl & Hwr) & Hfloor & Hlevel).
  pose proof (rest_lands g p Hrest Hin) as Hp.
  destruct Hrest as (Hmem & Hw & Hh & Hy & Hl & Hr & Hv).
  pose proof Hin as (HA & HD).
  assert (Hcur : currentPosOf g = playerPos g) by now apply moveSideways_idle.
  (* the platform loop *)
  assert (Hlanded : exists q,
             In q (platforms g)
             /\ landsOn (currentPosOf g) (tentative g) q
             /\ landed g = landOn (tentative g) q).
  { unfold landed.
    destruct (landing_cases (platforms g) (currentPosOf g) (tentative g))
      as [[_ Hnone] | (before & q & after & Hsplit & _ & Hq & Heq)].
    - exfalso. exact (Hnone p Hmem Hp).
    - exists q. split; [| now split]. rewrite Hsplit. apply in_elt. }
  destruct Hlanded as (q & Hqmem & Hq & Hlanded).
  pose proof (Hlevel q Hqmem Hq) as Htop.
  (* the floor test *)
  assert (Hgy : py (nextPos (grounded g)) == py (playerPos g)).
  { destruct (grounded_cases g) as [[Hf ->] | [Hf ->]]; rewrite Hlanded in *.
    - apply Qgeb_true in Hf. simpl in *. lra.
    - simpl. lra. }
  assert (Hgx : px (nextPos (grounded g)) = px (playerPos g)).
  { destruct (grounded_cases g) as [[Hf ->] | [Hf ->]]; rewrite Hlanded; simpl;
      unfold tentative, fall; simpl; now rewrite Hcur. }
  assert (Hgv : velocity (grounded g) = 0%Z).
  { destruct (grounded_cases g) as [[Hf ->] | [Hf ->]]; now rewrite ?Hlanded. }
  (* the jump and the walls *)
  assert (Hv' : verticalVelocity (physics g) = 0%Z).
  { now rewrite physics_velocity, resolve_velocity, HW. }
  assert (Hy' : py (playerPos (physics g)) == py (playerPos g)).
  { now rewrite physics_pos, resolve_py. }
  assert (Hx' : px (playerPos (physics g)) == px (playerPos g)).
  { rewrite physics_pos. unfold resolve, wallClamp. simpl.
    replace (px (nextPos (jump (keysPressed g) (grounded g))))
      with (px (playerPos g)).
    - now apply qBound_inside.
    - unfold jump. now destruct (_ && _). }
  split; [| now repeat split].
  assert (Hcur' : currentPosOf (physics g) = playerPos (physics g))
    by now apply moveSideways_idle.
  unfold settled, atRestOn, betweenWalls.
  change (platforms (physics g)) with (platforms g).
  change (keysPressed (physics g)) with (keysPressed g).
  change (sceneRect (physics g)) with (sceneRect g).
  rewrite Hx', Hy'.
  split; [repeat (split; [assumption |]); exact Hv' |].
  split; [exact Hin |]. split; [exact HW |].
  split; [now split |]. split; [exact Hfloor |].
  intros q' Hq'mem Hq'. apply (Hlevel q' Hq'mem).
  revert Hq'. apply landsOn_ext.
  - now rewrite Hcur', Hcur.
  - change (px (currentPosOf (physics g)) == px (currentPosOf g)).
    now rewrite Hcur', Hcur.
  - rewrite !tentative_py, Hv', Hv, Hy'. reflexivity.
  - now rewrite !tentative_velocity, Hv', Hv.
Qed.

(** C2, amended. A player at rest on a platform (bottom edge on its top
    edge, overlapping it, zero velocity) stays where it is, with zero
    velocity, for any number of physics ticks, when no direction key and
    no jump key is held, the player is between the walls, the platform's
    top is not below the floor line, and every platform that passes the
    landing test from there has its top at the same height. *)
Theorem rest_is_stable (g : GameView) (p : QRectF) :
  atRestOn g p ->
  noHorizontalInput g ->
  contains (keysPressed g) Key_W = false ->
  betweenWalls g ->
  top (sceneBoundingRect p) <= bottom (sceneRect g) ->
  landsLevelWith g p ->
  staysPut g.
Proof.
  intros Hrest Hin HW Hwalls Hfloor Hlevel n.
  assert (Hs : settled g p) by (unfold settled; auto 10).
  assert (Hv0 : verticalVelocity g = 0%Z) by apply Hrest.
  assert (Hn : settled (Nat.iter n physics g) p
               /\ px (playerPos (Nat.iter n physics g)) == px (playerPos g)
               /\ py (playerPos (Nat.iter n physics g)) == py (playerPos g)
               /\ verticalVelocity (Nat.iter n physics g) = 0%Z).
  { induction n as [| n IH]; simpl.
    - split; [exact Hs |]. split; [reflexivity |]. split; [reflexivity | exact Hv0].
    - destruct IH as (IHs & IHx & IHy & _).
      destruct (settled_step _ p IHs) as (Hs' & Hx & Hy & Hv).
      split; [exact Hs' |]. split; [now rewrite Hx |].
      split; [now rewrite Hy | exact Hv]. }
  destruct Hn as (_ & Hx & Hy & Hv). now rewrite Hv0.
Qed.

(** ** The generator monad *)

Lemma bind_Some {A B} (c : Gen A) (k : A -> Gen B) draws b rest :
  bind c k draws = Some (b, rest) <->
  exists a mid, c draws = Some (a, mid) /\ k a mid = Some (b, rest).
Proof.
  unfold bind. split.
  - destruct (c draws) as [[a mid] |]; [| discriminate].
    intros Hk. now exists a, mid.
  - intros (a & mid & -> & Hk). exact Hk.
Qed.

Lemma ret_Some {A} (a b : A) draws rest :
  ret a draws = Some (b, rest) <-> a = b /\ draws = rest.
Proof.
  unfold ret. split.
  - intros [= -> ->]. now split.
  - now intros [-> ->].
Qed.

Lemma tailOf_refl d : tailOf d d.
Proof. now exists []. Qed.

Lemma tailOf_cons u d rest : tailOf rest d -> tailOf rest (u :: d).
Proof. intros [used ->]. now exists (u :: used). Qed.

Lemma tailOf_trans a b c : tailOf a b -> tailOf b c -> tailOf a c.
Proof. intros [u1 ->] [u2 ->]. exists (u2 ++ u1). now rewrite app_assoc. Qed.

Lemma unitDraws_tail rest draws : tailOf rest draws -> unitDraws draws -> unitDraws rest.
Proof.
  intros [used ->] H. unfold unitDraws in *. rewrite Forall_app in H. tauto.
Qed.

Lemma pairs_ind (P : list Q -> Prop) :
  P [] -> (forall u, P [u]) ->
  (forall u1 u2 rest, P rest -> P (u1 :: u2 :: rest)) ->
  forall draws, P draws.
Proof.
  intros H0 H1 H2.
  assert (H : forall draws, P draws /\ forall u, P (u :: draws)).
  { induction draws as [| u draws [IH IH']].
    - split; [exact H0 | exact H1].
    - split; [apply IH' |]. intros u'. now apply H2. }
  intros draws. apply H.
Qed.

(** ** The goal *)

Lemma sampleWinPos_spec spawn sceneBounds draws winPos rest :
  sampleWinPos spawn sceneBounds draws = Some (winPos, rest) ->
  tailOf rest draws
  /\ 150 * 150 <= lengthSquared spawn winPos
  /\ exists u1 u2,
       In u1 draws /\ In u2 draws
       /\ winPos = mkPoint (u1 * width sceneBounds) (u2 * (height sceneBounds / 2)).
Proof.
  revert winPos rest. induction draws as [| u | u1 u2 draws IH] using pairs_ind;
    intros winPos rest; simpl; try discriminate.
  destruct (Qltb _ _) eqn:Hfar.
  - intros H. destruct (IH _ _ H) as (Ht & Hd & v1 & v2 & Hv1 & Hv2 & Hw).
    split; [now do 2 apply tailOf_cons |]. split; [exact Hd |].
    exists v1, v2. simpl. auto.
  - intros [= <- <-]. split; [do 2 apply tailOf_cons; apply tailOf_refl |].
    split; [now apply Qltb_false |].
    exists u1, u2. simpl. auto.
Qed.

(** ** The path platforms *)

Lemma qAbs_Qabs t : qAbs t == Qabs t.
Proof.
  unfold qAbs. destruct (Qgeb t 0) eqn:H.
  - apply Qgeb_true in H. now rewrite Qabs_pos.
  - apply Qgeb_false in H. rewrite Qabs_neg; [reflexivity | now apply Qlt_le_weak].
Qed.

Lemma tooCloseToSpawn_false spawn x y :
  tooCloseToSpawn spawn x y = false <-> ~ withinBox spawn 100 80 x y.
Proof.
  clear collidesWithEllipse collidesWithPolygon.
  unfold tooCloseToSpawn, withinBox.
  rewrite <- not_true_iff_false, andb_true_iff, !Qltb_true, !qAbs_Qabs. tauto.
Qed.

Lemma withinBox_smaller c a b a' b' x y :
  a' <= a -> b' <= b -> withinBox c a' b' x y -> withinBox c a b x y.
Proof. unfold withinBox. intros Ha Hb [Hx Hy]. split; lra. Qed.

Lemma samplePlatformX_spec spawn sceneBounds y draws x rest :
  samplePlatformX spawn sceneBounds y draws = Some (x, rest) ->
  tailOf rest draws
  /\ ~ withinBox spawn 100 80 x y
  /\ exists u, In u draws /\ x = u * (width sceneBounds - 80).
Proof.
  revert x rest. induction draws as [| u draws IH]; intros x rest; simpl;
    [discriminate |].
  destruct (tooCloseToSpawn _ _ _) eqn:Hclose.
  - intros H. destruct (IH _ _ H) as (Ht & Hout & v & Hv & Hx).
    split; [now apply tailOf_cons |]. split; [exact Hout |]. exists v. auto.
  - intros [= <- <-]. split; [apply tailOf_cons, tailOf_refl |].
    split; [now apply tooCloseToSpawn_false |]. exists u. auto.
Qed.

Lemma generateDouble_tail draws u rest :
  generateDouble draws = Some (u, rest) -> tailOf rest draws /\ In u draws.
Proof.
  destruct draws as [| v draws]; simpl; [discriminate |].
  intros [= <- <-]. split; [apply tailOf_cons, tailOf_refl | now left].
Qed.

Lemma boundedInt_tail lo hi draws n rest :
  boundedInt lo hi draws = Some (n, rest) -> tailOf rest draws.
Proof.
  unfold boundedInt. rewrite bind_Some. intros (u & mid & Hu & Hr).
  apply ret_Some in Hr as [_ <-]. now apply generateDouble_tail in Hu.
Qed.

Lemma pathPlatforms_spec n i spawn stepY sceneBounds draws ps ts rest :
  pathPlatforms n i spawn stepY sceneBounds draws = Some ((ps, ts), rest) ->
  tailOf rest draws /\ List.length ps = n /\ Forall (pathPlatform spawn) ps.
Proof.
  revert i draws ps ts rest. induction n as [| n IH]; intros i draws ps ts rest.
  - simpl. intros [[= <- <-] <-]%ret_Some.
    split; [apply tailOf_refl |]. split; [reflexivity | constructor].
  - simpl. rewrite bind_Some. intros (x & d1 & Hx & H).
    apply bind_Some in H as (chance & d2 & Hc & H).
    apply bind_Some in H as (tris & d3 & Htris & H).
    apply bind_Some in H as ([ps' ts'] & d4 & Hrec & H).
    apply ret_Some in H as [[= <- <-] <-].
    apply samplePlatformX_spec in Hx as (Ht1 & Hout & _).
    apply boundedInt_tail in Hc.
    assert (Ht3 : tailOf d3 d2).
    { destruct (chance <? 40)%Z.
      - apply bind_Some in Htris as (off & d & Hoff & Hr).
        apply ret_Some in Hr as [_ <-]. now apply boundedInt_tail in Hoff.
      - apply ret_Some in Htris as [_ <-]. apply tailOf_refl. }
    destruct (IH _ _ _ _ _ Hrec) as (Ht4 & Hlen & Hall).
    split; [eauto using tailOf_trans |].
    split; [simpl; now rewrite Hlen |].
    constructor; [| exact Hall]. now split.
Qed.

(** ** The loops of the generator, as the source writes them *)

Lemma sampleWinPos_unfold spawn sceneBounds draws :
  sampleWinPos spawn sceneBounds draws
  = (x <- boundedReal (width sceneBounds) ;;
     y <- boundedReal (height sceneBounds / 2) ;;
     if Qltb (lengthSquared spawn (mkPoint x y)) (150 * 150)
     then sampleWinPos spawn sceneBounds
     else ret (mkPoint x y)) draws.
Proof.
  destruct draws as [| u1 [| u2 rest]]; try reflexivity.
  unfold bind, boundedReal, generateDouble, ret. simpl.
  now destruct (Qltb _ _).
Qed.

Lemma samplePlatformX_unfold spawn sceneBounds y draws :
  samplePlatformX spawn sceneBounds y draws
  = (x <- boundedReal (width sceneBounds - 80) ;;
     if tooCloseToSpawn spawn x y
     then samplePlatformX spawn sceneBounds y
     else ret x) draws.
Proof.
  destruct draws as [| u rest]; try reflexivity.
  unfold bind, boundedReal, generateDouble, ret. simpl.
  now destruct (tooCloseToSpawn _ _ _).
Qed.

(** ** Draws enough for the generator to return *)

Lemma boundedInt_range lo hi draws n rest :
  unitDraws draws -> (lo < hi)%Z ->
  boundedInt lo hi draws = Some (n, rest) ->
  (lo <= n < hi)%Z.
Proof.
  intros Hunit Hlt. unfold boundedInt. rewrite bind_Some.
  intros (u & mid & Hu & Hr). apply ret_Some in Hr as [<- _].
  apply generateDouble_tail in Hu as [_ Hin].
  unfold unitDraws in Hunit. rewrite Forall_forall in Hunit.
  destruct (Hunit u Hin) as [H0 H1].
  assert (Hk : 0 < inject_Z (hi - lo)).
  { change 0 with (inject_Z 0). rewrite <- Zlt_Qlt. lia. }
  assert (Hlo : (0 <= Qfloor (u * inject_Z (hi - lo)))%Z).
  { change 0%Z with (Qfloor 0). apply Qfloor_resp_le. nra. }
  assert (Hhi : (Qfloor (u * inject_Z (hi - lo)) < hi - lo)%Z).
  { rewrite Zlt_Qlt. eapply Qle_lt_trans; [apply Qfloor_le |]. nra. }
  lia.
Qed.


(** Rejected draws are skipped. *)
Lemma samplePlatformX_skips spawn sceneBounds y rejected draws :
  Forall (fun u => tooCloseToSpawn spawn (u * (width sceneBounds - 80)) y = true)
         rejected ->
  samplePlatformX spawn sceneBounds y (rejected ++ draws)
  = samplePlatformX spawn sceneBounds y draws.
Proof.
  induction 1 as [| u rejected Hu _ IH]; simpl; [reflexivity |].
  now rewrite Hu.
Qed.





Lemma tailOf_Forall (P : Q -> Prop) rest draws :
  tailOf rest draws -> Forall P draws -> Forall P rest.
Proof. intros [used ->] H. rewrite Forall_app in H. tauto. Qed.


(** ** The level generator *)

Lemma isBootstrap_false g :
  isBootstrap g = false <-> level g <> 0%Z /\ isNull (lastSpawnPos g) = false.
Proof.
  unfold isBootstrap. rewrite orb_false_iff, Z.eqb_neq. tauto.
Qed.

Lemma isBootstrap_true g :
  isBootstrap g = true <-> level g = 0%Z \/ isNull (lastSpawnPos g) = true.
Proof.
  unfold isBootstrap. rewrite orb_true_iff, Z.eqb_eq. tauto.
Qed.

(** What a generation that does not take the first-level branch returns. *)
Lemma randomLayout_spec spawn sceneBounds draws lay rest :
  randomLayout spawn sceneBounds draws = Some (lay, rest) ->
  exists winPos path safe u1 u2,
    spawnPos lay = spawn
    /\ goal lay = mkRect (px winPos) (py winPos) 30 30
    /\ layoutPlatforms lay = path ++ safe
    /\ List.length path = numPlatforms
    /\ Forall (pathPlatform spawn) path
    /\ 150 * 150 <= lengthSquared spawn winPos
    /\ In u1 draws /\ In u2 draws
    /\ winPos = mkPoint (u1 * width sceneBounds) (u2 * (height sceneBounds / 2)).
Proof.
  unfold randomLayout. rewrite bind_Some. intros (winPos & d1 & Hwin & H).
  apply bind_Some in H as ([path tris] & d2 & Hpath & H).
  apply bind_Some in H as (k & d3 & Hk & H).
  apply bind_Some in H as (safe & d4 & Hsafe & H).
  apply ret_Some in H as [<- <-].
  apply sampleWinPos_spec in Hwin as (_ & Hfar & u1 & u2 & Hu1 & Hu2 & Hw).
  apply pathPlatforms_spec in Hpath as (_ & Hlen & Hall).
  exists winPos, path, safe, u1, u2. simpl. auto 10.
Qed.

Lemma generateLevel_random g draws g' rest :
  isBootstrap g = false ->
  generateLevel g draws = Some (g', rest) ->
  exists lay,
    randomLayout (lastSpawnPos g) (sceneRect g) draws = Some (lay, rest)
    /\ playerPos g' = spawnPos lay
    /\ winCircle g' = Some (goal lay)
    /\ platforms g' = layoutPlatforms lay
    /\ redTriangles g' = layoutTriangles lay
    /\ lastSpawnPos g' = lastSpawnPos g.
Proof.
  intros Hb. unfold generateLevel, layoutFor. rewrite Hb, bind_Some.
  intros (lay & mid & Hlay & H). apply ret_Some in H as [<- <-].
  exists lay. simpl. auto 10.
Qed.

(** C4. A generation that is not the first-level one (the level is not 0
    and there is a spawn point) returns fourteen path platforms, followed
    by the platforms near the goal; the corner of every path platform is
    outside the box that reaches 100 to each side and 80 up and down from
    the spawn point, the test of the resampling loop, and so outside the
    box of width 100 and height 80 centred on the spawn point. *)
Theorem path_platforms_clear_of_spawn (g : GameView) (draws : list Q)
    (g' : GameView) (rest : list Q) :
  level g <> 0%Z ->
  isNull (lastSpawnPos g) = false ->
  generateLevel g draws = Some (g', rest) ->
  exists path safe,
    platforms g' = path ++ safe
    /\ List.length path = 14%nat
    /\ playerPos g' = lastSpawnPos g
    /\ Forall (fun p =>
                 w p = 80 /\ h p = 10
                 /\ ~ withinBox (lastSpawnPos g) 100 80 (xp p) (yp p)
                 /\ ~ withinBox (lastSpawnPos g) 50 40 (xp p) (yp p)) path.
Proof.
  intros Hlevel Hspawn Hgen.
  assert (Hb : isBootstrap g = false) by now apply isBootstrap_false.
  destruct (generateLevel_random _ _ _ _ Hb Hgen)
    as (lay & Hlay & Hpos & _ & Hplats & _).
  apply randomLayout_spec in Hlay
    as (winPos & path & safe & u1 & u2 & Hs & _ & Hp & Hlen & Hall & _).
  exists path, safe. rewrite Hplats, Hpos, Hs.
  split; [exact Hp |]. split; [exact Hlen |]. split; [reflexivity |].
  eapply Forall_impl; [| exact Hall].
  intros p (Hw & Hh & Hout). split; [exact Hw |]. split; [exact Hh |].
  split; [exact Hout |]. intros Hin. apply Hout.
  revert Hin. apply withinBox_smaller; lra.
Qed.

(** C5. A generation that is not the first-level one, in a scene of
    positive size at the origin and with draws of the unit interval, puts
    the goal at a point whose squared distance from the spawn point is at
    least 150 squared (so every length that reaches from one to the other
    is at least 150), whose vertical coordinate is in the top half of the
    scene and whose horizontal coordinate is within the scene's width. *)
Theorem goal_far_from_spawn (g : GameView) (draws : list Q)
    (g' : GameView) (rest : list Q) :
  level g <> 0%Z ->
  isNull (lastSpawnPos g) = false ->
  unitDraws draws ->
  sceneAtOrigin g ->
  0 < width (sceneRect g) ->
  0 < height (sceneRect g) ->
  generateLevel g draws = Some (g', rest) ->
  exists gx gy,
    winCircle g' = Some (mkRect gx gy 30 30)
    /\ 150 * 150 <= lengthSquared (lastSpawnPos g) (mkPoint gx gy)
    /\ (forall d, 0 <= d ->
          lengthSquared (lastSpawnPos g) (mkPoint gx gy) <= d * d -> 150 <= d)
    /\ top (sceneRect g) <= gy
    /\ gy < top (sceneRect g) + height (sceneRect g) / 2
    /\ left (sceneRect g) <= gx
    /\ gx < right (sceneRect g).
Proof.
  intros Hlevel Hspawn Hunit [Hx0 Hy0] Hw Hh Hgen.
  assert (Hb : isBootstrap g = false) by now apply isBootstrap_false.
  destruct (generateLevel_random _ _ _ _ Hb Hgen)
    as (lay & Hlay & _ & Hgoal & _).
  apply randomLayout_spec in Hlay
    as (winPos & path & safe & u1 & u2 & _ & Hg & _ & _ & _ & Hfar & Hu1 & Hu2 & Hwin).
  exists (px winPos), (py winPos). rewrite Hgoal, Hg.
  split; [reflexivity |].
  assert (Hfar' : 150 * 150
                  <= lengthSquared (lastSpawnPos g) (mkPoint (px winPos) (py winPos)))
    by now destruct winPos.
  split; [exact Hfar' |].
  split; [intros d Hd Hle; nra |].
  unfold unitDraws in Hunit. rewrite Forall_forall in Hunit.
  destruct (Hunit _ Hu1) as [Hu1a Hu1b]. destruct (Hunit _ Hu2) as [Hu2a Hu2b].
  unfold top, left, right, width, height in *. rewrite Hx0, Hy0, Hwin. simpl.
  assert (Hh2 : 0 < h (sceneRect g) / 2).
  { apply Qlt_shift_div_l; lra. }
  repeat split; try nra.
Qed.

(** C8, amended. The first-level generation (level 0, or no spawn point
    yet) returns, for any scene and without reading a draw: the spawn
    point at half the scene's width and at its height minus the player's
    height of 20; exactly one platform, 100 by 10, whose top edge is the
    bottom edge of the player standing on the spawn point and which
    reaches from 40 left of the spawn point to 60 right of it, so that its
    middle is under the middle of the 20 wide player, 10 right of the
    spawn point; no spike; and the goal 100 to the left of the spawn point
    and 30 above it, 50 above the scene's height. *)
Theorem bootstrap_layout (g : GameView) (draws : list Q) :
  level g = 0%Z \/ isNull (lastSpawnPos g) = true ->
  exists g' spawn p c,
    generateLevel g draws = Some (g', draws)
    /\ spawn = mkPoint (width (sceneRect g) / 2) (height (sceneRect g) - 20)
    /\ playerPos g' = spawn /\ lastSpawnPos g' = spawn
    /\ platforms g' = [p]
    /\ w p = 100 /\ h p = 10
    /\ top p = py spawn + height playerItemRect
    /\ left p == px spawn - 40
    /\ right p == px spawn + 60
    /\ right p == px spawn + width playerItemRect + 40
    /\ left p + width p / 2 == px spawn + width playerItemRect / 2
    /\ left p + width p / 2 == px spawn + 10
    /\ redTriangles g' = []
    /\ winCircle g' = Some c
    /\ w c = 30 /\ h c = 30
    /\ xp c = px spawn - 100
    /\ yp c == py spawn - 30
    /\ yp c = height (sceneRect g) - 50.
Proof.
  intros Hb. apply isBootstrap_true in Hb.
  exists (updateHUD
            (mkGameView (spawnPos (bootstrapLayout (sceneRect g)))
               (Some (goal (bootstrapLayout (sceneRect g))))
               [] (layoutPlatforms (bootstrapLayout (sceneRect g)))
               (keysPressed g) (verticalVelocity g) (deaths g) (level g)
               (livesText g) (levelsText g)
               (spawnPos (bootstrapLayout (sceneRect g))) None (sceneRect g))),
    (spawnPos (bootstrapLayout (sceneRect g))),
    (mkRect (width (sceneRect g) / 2 - 40) (height (sceneRect g) - 20 + 20) 100 10),
    (goal (bootstrapLayout (sceneRect g))).
  split.
  { unfold generateLevel, layoutFor, bind, ret. now rewrite Hb. }
  unfold left, right, top, width, height. simpl.
  repeat split; try reflexivity; unfold width; try ring; field.
Qed.

(** ** The tick as a whole *)

Lemma updatePosition_playing g :
  (deaths g < 10)%Z ->
  updatePosition g = (g' <- checkWin (physics g) ;; ret (updateHUD (checkSpikes g'))).
Proof.
  intros H. unfold updatePosition.
  destruct (Z.geb_spec (deaths g) 10); [lia | reflexivity].
Qed.

Lemma updatePosition_over g draws :
  (10 <= deaths g)%Z ->
  updatePosition g draws
  = Some (match gameOverText g with None => showGameOver g | Some _ => g end, draws).
Proof.
  intros H. unfold updatePosition.
  destruct (Z.geb_spec (deaths g) 10); [reflexivity | lia].
Qed.

Lemma generateLevel_keeps g draws g' rest :
  generateLevel g draws = Some (g', rest) ->
  deaths g' = deaths g /\ level g' = level g
  /\ verticalVelocity g' = verticalVelocity g
  /\ keysPressed g' = keysPressed g /\ sceneRect g' = sceneRect g
  /\ playerPos g' = lastSpawnPos g' /\ gameOverText g' = None.
Proof.
  unfold generateLevel. rewrite bind_Some. intros (lay & mid & Hlay & H).
  apply ret_Some in H as [<- _]. simpl. repeat split; try reflexivity.
  unfold layoutFor in Hlay. destruct (isBootstrap g) eqn:Hb; [reflexivity |].
  apply randomLayout_spec in Hlay as (? & ? & ? & ? & ? & Hs & _). now rewrite Hs.
Qed.

Lemma checkWin_cases g draws g' rest :
  checkWin g draws = Some (g', rest) ->
  (collidesWithGoal (playerPos g) (winCircle g) = false /\ g' = g /\ rest = draws)
  \/ (collidesWithGoal (playerPos g) (winCircle g) = true
      /\ generateLevel (setLevel g (level g + 1)) draws = Some (g', rest)).
Proof.
  unfold checkWin. destruct (collidesWithGoal _ _).
  - intros H. now right.
  - intros [<- <-]%ret_Some. now left.
Qed.

Lemma checkWin_keeps g draws g' rest :
  checkWin g draws = Some (g', rest) ->
  deaths g' = deaths g /\ verticalVelocity g' = verticalVelocity g
  /\ (level g <= level g' <= level g + 1)%Z.
Proof.
  intros H. apply checkWin_cases in H as [(_ & -> & _) | (_ & H)].
  - repeat split; lia.
  - apply generateLevel_keeps in H as (Hd & Hl & Hv & _).
    rewrite Hd, Hl, Hv. simpl. repeat split; lia.
Qed.

(** The spike loop counts one death and sends the player back to the
    spawn point when a spike is hit, and does nothing otherwise. *)
Lemma hitSpike_cases tris g :
  (existsb (collidesWithPolygon (playerPos g)) tris = true
   /\ hitSpike tris g = setPos (setDeaths g (deaths g + 1)) (lastSpawnPos g))
  \/ (existsb (collidesWithPolygon (playerPos g)) tris = false
      /\ hitSpike tris g = g).
Proof.
  induction tris as [| tri tris IH]; simpl.
  - now right.
  - destruct (collidesWithPolygon (playerPos g) tri); [now left | exact IH].
Qed.

Lemma hitSpike_keeps tris g :
  sceneRect (hitSpike tris g) = sceneRect g
  /\ level (hitSpike tris g) = level g
  /\ verticalVelocity (hitSpike tris g) = verticalVelocity g
  /\ (deaths g <= deaths (hitSpike tris g) <= deaths g + 1)%Z.
Proof.
  destruct (hitSpike_cases tris g) as [[_ ->] | [_ ->]]; simpl;
    repeat split; lia.
Qed.

(** A tick of a running game is the physics, the goal check, the spike
    loop and the HUD, in this order. *)
Lemma playing_tick g draws g' rest :
  (deaths g < 10)%Z ->
  updatePosition g draws = Some (g', rest) ->
  exists g2,
    checkWin (physics g) draws = Some (g2, rest)
    /\ g' = updateHUD (checkSpikes g2)
    /\ deaths g2 = deaths g
    /\ verticalVelocity g2 = verticalVelocity (physics g).
Proof.
  intros Hplay. rewrite (updatePosition_playing g Hplay), bind_Some.
  intros (g2 & mid & Hwin & H). apply ret_Some in H as [<- <-].
  exists g2. split; [exact Hwin |]. split; [reflexivity |].
  destruct (checkWin_keeps _ _ _ _ Hwin) as (Hd & Hv & _). now split.
Qed.

(** C7. In a tick of a running game, the spike loop looks at the game as
    the physics and the goal check left it ([g2]).  When the player
    collides there with a spike of that level, however many, the death
    count goes up by exactly 1, the player is put on the last spawn point,
    and the velocity stays as the physics left it; otherwise deaths and
    position stay as the goal check left them. *)
Theorem spike_costs_one_life (g : GameView) (draws : list Q)
    (g' : GameView) (rest : list Q) :
  (deaths g < 10)%Z ->
  updatePosition g draws = Some (g', rest) ->
  exists g2,
    checkWin (physics g) draws = Some (g2, rest)
    /\ g' = updateHUD (checkSpikes g2)
    /\ deaths g2 = deaths g
    /\ level g' = level g2
    /\ lastSpawnPos g' = lastSpawnPos g2
    /\ verticalVelocity g' = verticalVelocity (physics g)
    /\ (onSpike g2 = true ->
          deaths g' = (deaths g + 1)%Z /\ playerPos g' = lastSpawnPos g2)
    /\ (onSpike g2 = false ->
          deaths g' = deaths g /\ playerPos g' = playerPos g2).
Proof.
  intros Hplay Htick.
  destruct (playing_tick g draws g' rest Hplay Htick) as (g2 & Hwin & -> & Hd & Hv).
  exists g2. split; [exact Hwin |]. split; [reflexivity |].
  split; [exact Hd |].
  unfold checkSpikes, onSpike.
  destruct (hitSpike_cases (redTriangles g2) g2) as [[Hhit ->] | [Hhit ->]];
    simpl; rewrite Hhit, Hd, Hv; repeat split; try reflexivity; discriminate.
Qed.

(** C10. In a tick of a running game where the player, moved by the
    physics, collides with the goal, the tick is: raise the level by one,
    generate the level (which puts the player on the spawn point and
    replaces the spikes), then scan the spikes of the generated level from
    that spawn point, then redraw the HUD.  The spikes the game had before
    the tick have no part in it: with any other spikes in their place the
    tick gives the same result, and a death is counted exactly when a
    spike of the new level collides with the player on the spawn point. *)
Theorem win_regenerates_before_spikes (g : GameView) (draws : list Q) :
  (deaths g < 10)%Z ->
  collidesWithGoal (playerPos (physics g)) (winCircle g) = true ->
  updatePosition g draws
  = (gl <- generateLevel (setLevel (physics g) (level g + 1)) ;;
     ret (updateHUD (checkSpikes gl))) draws
  /\ (forall old, updatePosition (setRedTriangles g old) draws = updatePosition g draws)
  /\ forall g' rest,
       updatePosition g draws = Some (g', rest) ->
       exists gl,
         generateLevel (setLevel (physics g) (level g + 1)) draws = Some (gl, rest)
         /\ level g' = (level g + 1)%Z
         /\ playerPos gl = lastSpawnPos gl
         /\ redTriangles g' = redTriangles gl
         /\ platforms g' = platforms gl
         /\ winCircle g' = winCircle gl
         /\ (onSpike gl = true -> deaths g' = (deaths g + 1)%Z)
         /\ (onSpike gl = false -> deaths g' = deaths g).
Proof.
  intros Hplay Hgoal.
  assert (Heq : forall old,
             updatePosition (setRedTriangles g old) draws
             = (gl <- generateLevel (setLevel (physics g) (level g + 1)) ;;
                ret (updateHUD (checkSpikes gl))) draws).
  { intros old.
    rewrite (updatePosition_playing (setRedTriangles g old) Hplay).
    unfold bind at 1, checkWin.
    change (collidesWithGoal (playerPos (physics (setRedTriangles g old)))
              (winCircle (physics (setRedTriangles g old))))
      with (collidesWithGoal (playerPos (physics g)) (winCircle g)).
    rewrite Hgoal. reflexivity. }
  assert (Hg : updatePosition g draws
               = (gl <- generateLevel (setLevel (physics g) (level g + 1)) ;;
                  ret (updateHUD (checkSpikes gl))) draws).
  { rewrite <- (Heq (redTriangles g)). now destruct g. }
  split; [exact Hg |]. split; [intros old; now rewrite Heq, Hg |].
  intros g' rest. rewrite Hg, bind_Some.
  intros (gl & mid & Hgen & H). apply ret_Some in H as [<- <-].
  exists gl. split; [exact Hgen |].
  destruct (generateLevel_keeps _ _ _ _ Hgen) as (Hd & Hl & _ & _ & _ & Hp & _).
  simpl in Hd, Hl. unfold checkSpikes, onSpike.
  destruct (hitSpike_cases (redTriangles gl) gl) as [[Hhit ->] | [Hhit ->]];
    simpl; rewrite Hhit, Hd, Hl;
    repeat split; try reflexivity; try exact Hp; discriminate.
Qed.

(** ** Game over *)

Lemma arg_0 : arg 0 = "0"%string.
Proof. reflexivity. Qed.

Lemma frozenAs_refl g : (10 <= deaths g)%Z -> frozenAs g g.
Proof.
  intros H. unfold frozenAs, gameOver. repeat split; auto.
  now apply Z.leb_le.
Qed.

Lemma finished_refl g : (10 <= deaths g)%Z -> finished g g.
Proof. intros H. split; [now apply frozenAs_refl | now left]. Qed.

Lemma handle_finished g0 g e draws :
  finished g0 g ->
  exists g', handle e g draws = Some (g', draws) /\ finished g0 g'
             /\ (gameOverText g = Some (shownText g0) ->
                 gameOverText g' = Some (shownText g0))
             /\ (e = Timeout -> gameOverText g' = Some (shownText g0)).
Proof.
  intros [Hf Htext].
  pose proof Hf as (Hd & Hl & Hp & Hv & Hlt & Hlv & Hpl & Htr & Hwc & Hsp & Hover).
  assert (H10 : (10 <= deaths g)%Z) by now apply Z.leb_le.
  destruct e as [k | k | vw vh |]; simpl.
  - exists (keyPressEvent k g). split; [reflexivity |].
    split; [split; [exact Hf | exact Htext] |]. split; [auto | discriminate].
  - exists (keyReleaseEvent k g). split; [reflexivity |].
    split; [split; [exact Hf | exact Htext] |]. split; [auto | discriminate].
  - exists (resizeEvent vw vh g). split; [reflexivity |].
    split; [split; [exact Hf | exact Htext] |]. split; [auto | discriminate].
  - rewrite (updatePosition_over g draws H10).
    destruct (gameOverText g) as [t |] eqn:Ht.
    + exists g. split; [reflexivity |].
      assert (Hshown : gameOverText g = Some (shownText g0)).
      { destruct Htext as [E | E]; [| congruence].
        unfold shownText. rewrite <- E. exact Ht. }
      split; [split; [exact Hf | now right] |]. split; auto.
    + exists (showGameOver g).
      assert (Hshown : gameOverText (showGameOver g) = Some (shownText g0)).
      { destruct Htext as [E | E]; [| discriminate].
        unfold shownText. rewrite <- E. simpl.
        unfold gameOverMessage. now rewrite Hl. }
      split; [reflexivity |].
      split; [split; [exact Hf | now right] |]. split; auto.
Qed.

Lemma run_finished es : forall g0 g draws,
  finished g0 g ->
  exists g', run es g draws = Some (g', draws) /\ finished g0 g'
             /\ (gameOverText g = Some (shownText g0) ->
                 gameOverText g' = Some (shownText g0))
             /\ (In Timeout es -> gameOverText g' = Some (shownText g0)).
Proof.
  induction es as [| e es IH]; intros g0 g draws Hf.
  - exists g. simpl. split; [reflexivity |]. split; [exact Hf |].
    split; [auto | intros []].
  - destruct (handle_finished g0 g e draws Hf) as (g1 & Hh & Hf1 & Hkeep1 & Hshow1).
    destruct (IH g0 g1 draws Hf1) as (g2 & Hr & Hf2 & Hkeep2 & Hshow2).
    exists g2. split; [simpl; unfold bind; now rewrite Hh |].
    split; [exact Hf2 |]. split; [auto |].
    intros [E | Hin]; [apply Hkeep2, Hshow1, E | apply Hshow2, Hin].
Qed.

(** C6. When a tick of a running game brings the death count to 10, the
    game is over and the HUD reads "Lives left: 0".  From then on every
    run of events (ticks, keys, resizes) reads no draw and leaves the
    death count, the level count, the player's position, the velocity,
    the HUD and the level as they are, with the game still over; the
    first tick puts up the game-over text, and a tick after that changes
    nothing at all. *)
Theorem game_over_is_terminal (g : GameView) (draws : list Q)
    (g' : GameView) (rest : list Q) :
  (deaths g < 10)%Z ->
  updatePosition g draws = Some (g', rest) ->
  (10 <= deaths g')%Z ->
  deaths g' = 10%Z
  /\ gameOver g' = true
  /\ livesText g' = "Lives left: 0"%string
  /\ forall (es : list Event) (draws' : list Q),
       exists g'',
         run es g' draws' = Some (g'', draws')
         /\ frozenAs g' g''
         /\ deaths g'' = 10%Z
         /\ livesText g'' = "Lives left: 0"%string
         /\ gameOver g'' = true
         /\ (In Timeout es -> gameOverText g'' = Some (shownText g'))
         /\ (In Timeout es -> updatePosition g'' draws' = Some (g'', draws')).
Proof.
  intros Hplay Htick Hten.
  destruct (playing_tick g draws g' rest Hplay Htick) as (g2 & Hwin & Hg' & Hd2 & _).
  assert (Hd : deaths g' = 10%Z).
  { destruct (hitSpike_keeps (redTriangles g2) g2) as (_ & _ & _ & Hstep).
    rewrite Hg' in Hten |- *. unfold checkSpikes in *. simpl in *. lia. }
  assert (Hlives : livesText g' = "Lives left: 0"%string).
  { rewrite Hg'. unfold updateHUD. simpl livesText.
    change (deaths (checkSpikes g2)) with (deaths (updateHUD (checkSpikes g2))).
    rewrite <- Hg', Hd. reflexivity. }
  split; [exact Hd |]. split; [apply Z.leb_le; lia |]. split; [exact Hlives |].
  intros es draws'.
  destruct (run_finished es g' g' draws' (finished_refl g' Hten))
    as (g'' & Hrun & [Hf _] & _ & Hshow).
  exists g''. split; [exact Hrun |]. split; [exact Hf |].
  pose proof Hf as (Hd'' & _ & _ & _ & Hl'' & _ & _ & _ & _ & _ & Hover).
  split; [congruence |]. split; [congruence |]. split; [exact Hover |].
  split; [exact Hshow |].
  intros Hin. rewrite updatePosition_over by lia.
  now rewrite (Hshow Hin).
Qed.

(** ** Counters, velocity and the scene along a run *)

(** A tick that finds no goal reads no draw and always returns. *)
Lemma updatePosition_no_goal g draws :
  (deaths g < 10)%Z ->
  collidesWithGoal (playerPos (physics g)) (winCircle g) = false ->
  updatePosition g draws = Some (updateHUD (checkSpikes (physics g)), draws).
Proof.
  intros Hplay Hgoal. rewrite (updatePosition_playing g Hplay).
  unfold bind, checkWin.
  change (winCircle (physics g)) with (winCircle g). now rewrite Hgoal.
Qed.

(** Deaths and levels never go down, and go up by at most one a tick. *)
Lemma updatePosition_counters g draws g' rest :
  updatePosition g draws = Some (g', rest) ->
  (deaths g <= deaths g' <= deaths g + 1)%Z
  /\ (level g <= level g' <= level g + 1)%Z
  /\ sceneRect g' = sceneRect g.
Proof.
  destruct (Z.lt_ge_cases (deaths g) 10) as [Hplay | Hover].
  - rewrite (updatePosition_playing g Hplay), bind_Some.
    intros (g2 & mid & Hwin & H). apply ret_Some in H as [<- _].
    destruct (checkWin_keeps _ _ _ _ Hwin) as (Hd & _ & Hl).
    assert (Hs : sceneRect g2 = sceneRect g).
    { apply checkWin_cases in Hwin as [(_ & -> & _) | (_ & Hgen)]; [reflexivity |].
      now apply generateLevel_keeps in Hgen as (_ & _ & _ & _ & -> & _). }
    destruct (hitSpike_keeps (redTriangles g2) g2) as (Hs' & Hl' & _ & Hd').
    change (deaths (physics g)) with (deaths g) in Hd.
    change (level (physics g)) with (level g) in Hl.
    unfold checkSpikes. simpl. rewrite Hs', Hl', Hs.
    repeat split; lia.
  - rewrite updatePosition_over by exact Hover. intros [= <- _].
    destruct (gameOverText g); simpl; repeat split; lia.
Qed.

(** The velocity a tick commits is 20 (a jump), 0 (on the ground) or one
    less than before. *)
Lemma physics_velocity_cases g :
  verticalVelocity (physics g) = 20%Z
  \/ verticalVelocity (physics g) = 0%Z
  \/ verticalVelocity (physics g) = (verticalVelocity g - 1)%Z.
Proof.
  rewrite physics_velocity, resolve_velocity.
  destruct (contains (keysPressed g) Key_W && onGround (grounded g)); [now left |].
  right. destruct (grounded_cases g) as [[_ ->] | [_ ->]]; [now left |].
  unfold landed.
  destruct (landing_cases (platforms g) (currentPosOf g) (tentative g))
    as [[-> _] | (? & ? & ? & _ & _ & _ & ->)]; [now right | now left].
Qed.

(** The scene stays at the origin along every run. *)
Lemma handle_scene_at_origin e g draws g' rest :
  sceneAtOrigin g -> handle e g draws = Some (g', rest) -> sceneAtOrigin g'.
Proof.
  intros Ho. destruct e as [k | k | vw vh |]; simpl.
  - now intros [= <- _].
  - now intros [= <- _].
  - intros [= <- _]. split; reflexivity.
  - intros H. apply updatePosition_counters in H as (_ & _ & Hs).
    unfold sceneAtOrigin. now rewrite Hs.
Qed.

Lemma run_scene_at_origin es : forall g draws g' rest,
  sceneAtOrigin g -> run es g draws = Some (g', rest) -> sceneAtOrigin g'.
Proof.
  induction es as [| e es IH]; intros g draws g' rest Ho; simpl.
  - now intros [= <- _].
  - rewrite bind_Some. intros (g1 & mid & Hh & Hr).
    eapply IH; [| exact Hr]. eapply handle_scene_at_origin; eauto.
Qed.

(** ** Further properties of the physics *)

Lemma qBound_range lo v hi :
  lo <= qBound lo v hi /\ (lo <= hi -> qBound lo v hi <= hi).
Proof.
  unfold qBound, qMax, qMin.
  destruct (Qltb hi v) eqn:H1; destruct (Qltb lo _) eqn:H2;
    try apply Qltb_true in H1; try apply Qltb_false in H1;
    try apply Qltb_true in H2; try apply Qltb_false in H2;
    split; intros; lra.
Qed.

Lemma resolve_px g :
  px (nextPos (resolve g))
  = qBound (left (sceneRect g)) (px (currentPosOf g))
           (right (sceneRect g) - width playerRect).
Proof.
  unfold resolve, wallClamp. simpl. f_equal.
  assert (Hl : px (nextPos (landed g)) = px (currentPosOf g)).
  { unfold landed.
    destruct (landing_cases (platforms g) (currentPosOf g) (tentative g))
      as [[-> _] | (? & ? & ? & _ & _ & _ & ->)]; reflexivity. }
  assert (Hg : px (nextPos (grounded g)) = px (currentPosOf g)).
  { destruct (grounded_cases g) as [[_ ->] | [_ ->]]; exact Hl. }
  unfold jump. now destruct (_ && _).
Qed.

Lemma currentPosOf_px g :
  px (currentPosOf g) == px (playerPos g) + sidewaysShift (keysPressed g).
Proof.
  unfold currentPosOf, moveSideways, sidewaysShift.
  destruct (contains (keysPressed g) Key_D), (contains (keysPressed g) Key_A);
    simpl; ring.
Qed.


Lemma grounded_le_floor g :
  py (nextPos (grounded g)) <= bottom (sceneRect g) - height playerRect.
Proof.
  destruct (grounded_cases g) as [[_ ->] | [Hf ->]].
  - simpl. apply Qle_refl.
  - apply Qgeb_false in Hf. now apply Qlt_le_weak.
Qed.

Lemma physics_above_floor g : aboveFloor (physics g).
Proof.
  unfold aboveFloor. change (sceneRect (physics g)) with (sceneRect g).
  rewrite physics_pos, resolve_py. apply grounded_le_floor.
Qed.


(** X3. The horizontal part of a tick does not depend on the vertical
    part: when the old x plus 7 for the right key held, minus 7 for the
    left key held (both held cancel), is between the walls, it is the x
    the tick commits, whether the player lands, falls or jumps. *)
Theorem sideways_step (g : GameView) :
  left (sceneRect g) <= px (playerPos g) + sidewaysShift (keysPressed g) ->
  px (playerPos g) + sidewaysShift (keysPressed g)
    <= right (sceneRect g) - width playerRect ->
  px (playerPos (physics g)) == px (playerPos g) + sidewaysShift (keysPressed g).
Proof.
  intros Hlo Hhi. rewrite physics_pos, resolve_px.
  rewrite <- currentPosOf_px in Hlo, Hhi |- *.
  now apply qBound_inside.
Qed.

(** A player that starts a tick on or above the floor line with a
    velocity of 2 or more keeps rising: no platform stops it. *)
Lemma rising_commit g :
  (2 <= verticalVelocity g)%Z -> aboveFloor g ->
  verticalVelocity (physics g) = (verticalVelocity g - 1)%Z
  /\ py (playerPos (physics g))
     = py (playerPos g) - inject_Z (verticalVelocity g - 1)
  /\ grounded g = tentative g.
Proof.
  intros Hv Hfloor.
  assert (Hnone : forall q, In q (platforms g) ->
                    ~ landsOn (currentPosOf g) (tentative g) q).
  { intros q _ (_ & Hle & _). rewrite tentative_velocity in Hle. lia. }
  assert (Hf : floorTest (sceneRect g) (tentative g) = false).
  { apply Qgeb_false. rewrite tentative_py. unfold aboveFloor in Hfloor.
    assert (H1 : 1 <= inject_Z (verticalVelocity g - 1)).
    { change 1 with (inject_Z 1). rewrite <- Zle_Qle. lia. }
    lra. }
  destruct (airborne_commit g Hnone Hf) as [Hv' Hy'].
  split; [exact Hv' |]. split; [exact Hy' |]. now apply airborne_grounded.
Qed.

(** X4. Platforms are one-way: a player on or above the floor line whose
    velocity is 2 or more at the start of a tick goes through every
    platform.  The tick commits the velocity less 1 and moves the player
    up by it, with on-ground unset, whatever platforms the level has and
    whatever keys are held. *)
Theorem rising_passes_platforms (g : GameView) :
  (2 <= verticalVelocity g)%Z ->
  aboveFloor g ->
  landed g = tentative g
  /\ onGround (grounded g) = false
  /\ verticalVelocity (physics g) = (verticalVelocity g - 1)%Z
  /\ py (playerPos (physics g))
     = py (playerPos g) - inject_Z (verticalVelocity g - 1).
Proof.
  intros Hv Hfloor.
  destruct (rising_commit g Hv Hfloor) as (Hv' & Hy' & Hg).
  split.
  - unfold landed. apply landing_none.
    intros q _ (_ & Hle & _). rewrite tentative_velocity in Hle. lia.
  - split; [now rewrite Hg |]. now split.
Qed.

Lemma iter_physics_scene k g :
  sceneRect (Nat.iter k physics g) = sceneRect g.
Proof. induction k as [| k IH]; [reflexivity | exact IH]. Qed.

Lemma rise_succ v k :
  rise v (S k) == rise v k + inject_Z (v - Z.of_nat k - 1).
Proof.
  unfold rise. rewrite Nat2Z.inj_succ. unfold Z.succ, Z.sub.
  rewrite !inject_Z_plus, !inject_Z_opp. simpl inject_Z. field.
Qed.

(** X6. The arc of a jump: a player on or above the floor line with
    velocity [v] has, after [k] ticks with [k < v], the velocity [v - k]
    and has gained [(v - 1) + ... + (v - k)] in height, whatever
    platforms are in the way and whatever keys are held.  From the
    velocity 20 of a jump this is 190 after 19 ticks. *)
Theorem jump_arc (g : GameView) (k : nat) :
  (Z.of_nat k < verticalVelocity g)%Z ->
  aboveFloor g ->
  verticalVelocity (Nat.iter k physics g) = (verticalVelocity g - Z.of_nat k)%Z
  /\ py (playerPos (Nat.iter k physics g))
     == py (playerPos g) - rise (verticalVelocity g) k.
Proof.
  intros Hk Hfloor.
  assert (H : verticalVelocity (Nat.iter k physics g)
              = (verticalVelocity g - Z.of_nat k)%Z
              /\ py (playerPos (Nat.iter k physics g))
                 == py (playerPos g) - rise (verticalVelocity g) k
              /\ aboveFloor (Nat.iter k physics g)).
  { induction k as [| k IH].
    - simpl. split; [lia |]. split; [unfold rise; simpl; field | exact Hfloor].
    - destruct IH as (IHv & IHy & IHf); [lia |].
      change (Nat.iter (S k) physics g) with (physics (Nat.iter k physics g)).
      destruct (rising_commit (Nat.iter k physics g)) as (Hv' & Hy' & _);
        [lia | exact IHf |].
      split; [rewrite Hv', IHv; lia |].
      split; [| apply physics_above_floor].
      rewrite Hy', IHy, IHv, rise_succ. ring. }
  destruct H as (Hv & Hy & _). now split.
Qed.

(** ** Further properties of runs *)

Lemma run_cons e es g draws g' rest :
  run (e :: es) g draws = Some (g', rest) <->
  exists g1 mid, handle e g draws = Some (g1, mid) /\ run es g1 mid = Some (g', rest).
Proof. simpl. apply bind_Some. Qed.

(** What every event handler keeps, every run keeps. *)
Lemma run_invariant (P : GameView -> Prop) :
  (forall e g draws g' rest, P g -> handle e g draws = Some (g', rest) -> P g') ->
  forall es g draws g' rest,
    P g -> run es g draws = Some (g', rest) -> P g'.
Proof.
  intros Hstep. induction es as [| e es IH]; intros g draws g' rest HP.
  - simpl. now intros [= <- _].
  - rewrite run_cons. intros (g1 & mid & Hh & Hr).
    eapply IH; [| exact Hr]. eapply Hstep; eauto.
Qed.

Lemma handle_not_tick e g draws :
  e <> Timeout ->
  exists g', handle e g draws = Some (g', draws)
    /\ playerPos g' = playerPos g /\ verticalVelocity g' = verticalVelocity g
    /\ deaths g' = deaths g /\ level g' = level g
    /\ livesText g' = livesText g /\ levelsText g' = levelsText g
    /\ lastSpawnPos g' = lastSpawnPos g
    /\ platforms g' = platforms g /\ redTriangles g' = redTriangles g
    /\ winCircle g' = winCircle g.
Proof.
  destruct e as [k | k | vw vh |]; intros He; [| | | congruence];
    eexists; (split; [reflexivity |]); simpl; repeat split.
Qed.

Lemma updatePosition_velocity g draws g' rest :
  updatePosition g draws = Some (g', rest) ->
  verticalVelocity g' = verticalVelocity g
  \/ verticalVelocity g' = verticalVelocity (physics g).
Proof.
  destruct (Z.lt_ge_cases (deaths g) 10) as [Hplay | Hover].
  - intros Htick. right.
    destruct (playing_tick g draws g' rest Hplay Htick) as (g2 & _ & -> & _ & Hv).
    destruct (hitSpike_keeps (redTriangles g2) g2) as (_ & _ & Hv' & _).
    unfold checkSpikes. simpl. now rewrite Hv'.
  - rewrite updatePosition_over by exact Hover. intros [= <- _]. left.
    now destruct (gameOverText g).
Qed.

(** X5. The vertical velocity never exceeds the jump's 20: if it is at
    most 20, it is at most 20 after any run of events. *)
Theorem velocity_at_most_jump (es : list Event) (g : GameView) (draws : list Q)
    (g' : GameView) (rest : list Q) :
  (verticalVelocity g <= 20)%Z ->
  run es g draws = Some (g', rest) ->
  (verticalVelocity g' <= 20)%Z.
Proof.
  apply (run_invariant (fun g => (verticalVelocity g <= 20)%Z)).
  clear. intros e g draws g' rest Hv.
  destruct e as [k | k | vw vh |]; simpl; try (intros [= <- _]; exact Hv).
  intros Htick. apply updatePosition_velocity in Htick as [-> | ->]; [exact Hv |].
  destruct (physics_velocity_cases g) as [-> | [-> | ->]]; lia.
Qed.

Lemma handle_counters e g draws g' rest :
  handle e g draws = Some (g', rest) ->
  (deaths g <= deaths g' <= deaths g + ticks [e])%Z
  /\ (level g <= level g' <= level g + ticks [e])%Z.
Proof.
  destruct e as [k | k | vw vh |]; simpl; try (intros [= <- _]; simpl; lia).
  intros Htick. apply updatePosition_counters in Htick. lia.
Qed.

(** X8. Deaths and levels won never go down, and over a run of events
    each goes up by at most the number of ticks in it. *)
Theorem counters_grow_with_ticks (es : list Event) :
  forall (g : GameView) (draws : list Q) (g' : GameView) (rest : list Q),
    run es g draws = Some (g', rest) ->
    (deaths g <= deaths g' <= deaths g + ticks es)%Z
    /\ (level g <= level g' <= level g + ticks es)%Z.
Proof.
  induction es as [| e es IH]; intros g draws g' rest.
  - simpl. intros [= <- _]. lia.
  - rewrite run_cons. intros (g1 & mid & Hh & Hr).
    apply handle_counters in Hh. apply IH in Hr.
    assert (Ht : ticks (e :: es) = (ticks [e] + ticks es)%Z)
      by (destruct e; simpl; lia).
    rewrite Ht. lia.
Qed.

(** X9. The death count never passes 10, so the lives left never go
    below 0: from at most 10 deaths, every run of events ends with at
    most 10. *)
Theorem deaths_at_most_ten (es : list Event) (g : GameView) (draws : list Q)
    (g' : GameView) (rest : list Q) :
  (deaths g <= 10)%Z ->
  run es g draws = Some (g', rest) ->
  (deaths g' <= 10 /\ 0 <= 10 - deaths g')%Z.
Proof.
  intros Hd Hrun.
  enough (deaths g' <= 10)%Z by lia.
  revert Hd Hrun. apply (run_invariant (fun g => (deaths g <= 10)%Z)).
  clear. intros e g draws g' rest Hd.
  destruct e as [k | k | vw vh |]; simpl; try (intros [= <- _]; exact Hd).
  destruct (Z.lt_ge_cases (deaths g) 10) as [Hplay | Hover].
  - intros Htick. apply updatePosition_counters in Htick. lia.
  - rewrite updatePosition_over by exact Hover. intros [= <- _].
    now destruct (gameOverText g).
Qed.

Lemma handle_hud e g draws g' rest :
  hudInSync g -> handle e g draws = Some (g', rest) -> hudInSync g'.
Proof.
  intros Hs. destruct e as [k | k | vw vh |]; simpl;
    try (intros [= <- _]; exact Hs).
  destruct (Z.lt_ge_cases (deaths g) 10) as [Hplay | Hover].
  - intros Htick.
    destruct (playing_tick g draws g' rest Hplay Htick) as (g2 & _ & -> & _).
    split; reflexivity.
  - rewrite updatePosition_over by exact Hover. intros [= <- _].
    now destruct (gameOverText g).
Qed.

Lemma generateLevel_hud g draws g' rest :
  generateLevel g draws = Some (g', rest) -> hudInSync g'.
Proof.
  unfold generateLevel. rewrite bind_Some. intros (lay & mid & _ & H).
  apply ret_Some in H as [<- _]. split; reflexivity.
Qed.

(** X10. From the start of the program on, the HUD shows the counters:
    after the constructor and any run of events the lives text is
    "Lives left: " with 10 less the deaths and the levels text is
    "Levels won: " with the level count. *)
Theorem hud_shows_counters (scene : QRectF) (es : list Event)
    (draws0 : list Q) (g0 : GameView) (draws : list Q)
    (g' : GameView) (rest : list Q) :
  newGameView scene draws0 = Some (g0, draws) ->
  run es g0 draws = Some (g', rest) ->
  hudInSync g'.
Proof.
  intros Hnew. apply generateLevel_hud in Hnew. revert Hnew.
  apply (run_invariant hudInSync). clear. apply handle_hud.
Qed.

Lemma handle_anchor e g draws g' rest :
  isNull (lastSpawnPos g) = false /\ (0 <= level g)%Z ->
  handle e g draws = Some (g', rest) ->
  lastSpawnPos g' = lastSpawnPos g /\ (0 <= level g')%Z.
Proof.
  intros [Hnull Hlevel].
  destruct e as [k | k | vw vh |]; simpl; try (intros [= <- _]; now split).
  intros Htick. pose proof (updatePosition_counters _ _ _ _ Htick) as (_ & Hl & _).
  split; [| lia].
  destruct (Z.lt_ge_cases (deaths g) 10) as [Hplay | Hover].
  - destruct (playing_tick g draws g' rest Hplay Htick) as (g2 & Hwin & -> & _).
    assert (Hg2 : lastSpawnPos g2 = lastSpawnPos g).
    { apply checkWin_cases in Hwin as [(_ & -> & _) | (_ & Hgen)]; [reflexivity |].
      apply generateLevel_random in Hgen as (lay & _ & _ & _ & _ & _ & Hsp).
      - exact Hsp.
      - apply isBootstrap_false. simpl. split; [lia | exact Hnull]. }
    unfold checkSpikes.
    destruct (hitSpike_cases (redTriangles g2) g2) as [[_ ->] | [_ ->]]; exact Hg2.
  - rewrite updatePosition_over in Htick by exact Hover.
    injection Htick as <- _. now destruct (gameOverText g).
Qed.

(** X11. Once there is a spawn point and the level count is not
    negative, no event moves the spawn point: winning a level generates
    the next one around the same point, and a death returns the player to
    it. *)
Theorem spawn_point_is_fixed (es : list Event) (g : GameView) (draws : list Q)
    (g' : GameView) (rest : list Q) :
  isNull (lastSpawnPos g) = false ->
  (0 <= level g)%Z ->
  run es g draws = Some (g', rest) ->
  lastSpawnPos g' = lastSpawnPos g.
Proof.
  intros Hnull Hlevel Hrun.
  enough (H : (lastSpawnPos g' = lastSpawnPos g
               /\ isNull (lastSpawnPos g') = false) /\ (0 <= level g')%Z)
    by apply H.
  revert Hrun.
  apply (run_invariant
           (fun g1 => (lastSpawnPos g1 = lastSpawnPos g
                       /\ isNull (lastSpawnPos g1) = false) /\ (0 <= level g1)%Z));
    [| now repeat split].
  clear - Hnull. intros e g1 d g2 r [[Heq Hn] Hl] Hh.
  destruct (handle_anchor e g1 d g2 r (conj Hn Hl) Hh) as [Hsp Hl'].
  rewrite Hsp. now repeat split.
Qed.

Lemma handle_inputs e g draws g' rest :
  handle e g draws = Some (g', rest) ->
  sceneRect g' = sceneAfter (sceneRect g) e
  /\ keysPressed g' = keysAfter (keysPressed g) e.
Proof.
  destruct e as [k | k | vw vh |]; simpl; try (intros [= <- _]; now split).
  intros Htick. pose proof (updatePosition_counters _ _ _ _ Htick) as (_ & _ & Hs).
  split; [exact Hs |].
  destruct (Z.lt_ge_cases (deaths g) 10) as [Hplay | Hover].
  - destruct (playing_tick g draws g' rest Hplay Htick) as (g2 & Hwin & -> & _).
    assert (Hg2 : keysPressed g2 = keysPressed g).
    { apply checkWin_cases in Hwin as [(_ & -> & _) | (_ & Hgen)]; [reflexivity |].
      now apply generateLevel_keeps in Hgen as (_ & _ & _ & -> & _). }
    unfold checkSpikes.
    destruct (hitSpike_cases (redTriangles g2) g2) as [[_ ->] | [_ ->]]; exact Hg2.
  - rewrite updatePosition_over in Htick by exact Hover.
    injection Htick as <- _. now destruct (gameOverText g).
Qed.

(** X12. Ticks never touch the inputs: after a run of events the scene is
    the one the last resize set (at the origin, with the viewport's
    size), or the old scene if there was none, and the set of held keys
    is the old one with the presses and releases applied in order. *)
Theorem inputs_follow_events (es : list Event) :
  forall (g : GameView) (draws : list Q) (g' : GameView) (rest : list Q),
    run es g draws = Some (g', rest) ->
    sceneRect g' = fold_left sceneAfter es (sceneRect g)
    /\ keysPressed g' = fold_left keysAfter es (keysPressed g).
Proof.
  induction es as [| e es IH]; intros g draws g' rest.
  - simpl. intros [= <- _]. now split.
  - rewrite run_cons. intros (g1 & mid & Hh & Hr).
    apply handle_inputs in Hh as [Hs Hk]. apply IH in Hr as [Hs' Hk'].
    simpl. now rewrite Hs', Hk', Hs, Hk.
Qed.

Lemma contains_cons s k k' :
  contains (k :: s) k' = (k' =? k)%Z || contains s k'.
Proof. reflexivity. Qed.

(** X7. The key handlers and the lookup of the tick: after a press of
    [k] a key is held when it is [k] or was held before, and after a
    release of [k] it is held when it is not [k] and was held before. *)
Theorem key_events_round_trip (g : GameView) (k k' : Z) :
  contains (keysPressed (keyPressEvent k g)) k'
    = (k' =? k)%Z || contains (keysPressed g) k'
  /\ contains (keysPressed (keyReleaseEvent k g)) k'
    = negb (k' =? k)%Z && contains (keysPressed g) k'.
Proof.
  unfold keyPressEvent, keyReleaseEvent. simpl. split.
  - unfold insert. destruct (contains (keysPressed g) k) eqn:Hk.
    + destruct (Z.eqb_spec k' k) as [-> | Hne]; [now rewrite Hk | reflexivity].
    + apply contains_cons.
  - unfold remove. induction (keysPressed g) as [| a s IH].
    + now rewrite andb_false_r.
    + simpl filter. destruct (Z.eqb_spec k a) as [<- | Hne]; simpl negb; cbv iota.
      * rewrite IH, contains_cons.
        destruct (Z.eqb_spec k' k); simpl; [reflexivity | reflexivity].
      * rewrite !contains_cons, IH.
        destruct (Z.eqb_spec k' a) as [-> | Hne']; simpl; [| reflexivity].
        destruct (Z.eqb_spec a k); [congruence | reflexivity].
Qed.

(** ** Further properties of the generator *)

Lemma tailOf_In rest draws u : tailOf rest draws -> In u rest -> In u draws.
Proof. intros [used ->] H. apply in_or_app. now right. Qed.

Lemma eachFrom_impl {A} (P P' : Z -> A -> Prop) i l :
  (forall j a, P j a -> P' j a) -> eachFrom P i l -> eachFrom P' i l.
Proof.
  intros HP. revert i. induction l as [| a l IH]; intros i; simpl; [tauto |].
  intros [Ha Hl]. split; [now apply HP | now apply IH].
Qed.

Lemma eachFrom_nth {A} (P : Z -> A -> Prop) (d : A) l : forall i j,
  eachFrom P i l -> (j < List.length l)%nat -> P (i + Z.of_nat j)%Z (nth j l d).
Proof.
  induction l as [| a l IH]; intros i j; simpl; [lia |].
  intros [Ha Hl] Hj. destruct j as [| j].
  - now rewrite Z.add_0_r.
  - replace (i + Z.of_nat (S j))%Z with (i + 1 + Z.of_nat j)%Z by lia.
    apply IH; [exact Hl | lia].
Qed.

Lemma eachFrom_Forall {A} (P : Z -> A -> Prop) (R : A -> Prop) l : forall i,
  (forall j a, P j a -> R a) -> eachFrom P i l -> Forall R l.
Proof.
  induction l as [| a l IH]; intros i HP; simpl; [constructor |].
  intros [Ha Hl]. constructor; [eapply HP; eauto | eapply IH; eauto].
Qed.

Lemma spikeOn_more ps ps' tri :
  (forall p, In p ps -> In p ps') -> spikeOn ps tri -> spikeOn ps' tri.
Proof.
  intros Hsub (p & off & Hin & Hoff & Htri). exists p, off. auto.
Qed.

(** The platform loop, band by band. *)
Lemma pathPlatforms_layout n : forall i spawn stepY sceneBounds draws ps ts rest,
  unitDraws draws ->
  pathPlatforms n i spawn stepY sceneBounds draws = Some ((ps, ts), rest) ->
  tailOf rest draws
  /\ List.length ps = n
  /\ eachFrom (bandPlatform spawn stepY sceneBounds draws) i ps
  /\ Forall (spikeOn ps) ts
  /\ (List.length ts <= n)%nat.
Proof.
  induction n as [| n IH]; intros i spawn stepY sceneBounds draws ps ts rest Hunit.
  - simpl. intros [[= <- <-] <-]%ret_Some.
    split; [apply tailOf_refl |]. repeat split; auto.
  - simpl. rewrite bind_Some. intros (x & d1 & Hx & H).
    apply bind_Some in H as (chance & d2 & Hc & H).
    apply bind_Some in H as (tris & d3 & Htris & H).
    apply bind_Some in H as ([ps' ts'] & d4 & Hrec & H).
    apply ret_Some in H as [[= <- <-] <-].
    apply samplePlatformX_spec in Hx as (Ht1 & _ & u & Hu & Hxu).
    apply boundedInt_tail in Hc.
    assert (Ht2 : tailOf d2 draws) by eauto using tailOf_trans.
    set (y := py spawn - inject_Z i * stepY) in *.
    assert (Htr : tailOf d3 d2
                  /\ Forall (spikeOn (mkRect x y 80 10 :: ps')) tris
                  /\ (List.length tris <= 1)%nat).
    { destruct (chance <? 40)%Z.
      - apply bind_Some in Htris as (off & d & Hoff & Hr).
        apply ret_Some in Hr as [<- <-].
        assert (Hrange : (10 <= off < 70)%Z).
        { apply (boundedInt_range 10 70 d2 off d); [| lia | exact Hoff].
          now apply (unitDraws_tail _ _ Ht2). }
        split; [now apply boundedInt_tail in Hoff |]. split; [| simpl; lia].
        constructor; [| constructor].
        exists (mkRect x y 80 10), off. split; [now left |].
        split; [exact Hrange | reflexivity].
      - apply ret_Some in Htris as [<- <-].
        split; [apply tailOf_refl |]. split; [constructor | simpl; lia]. }
    destruct Htr as (Ht3 & Htris' & Hlen1).
    assert (Ht3' : tailOf d3 draws) by eauto using tailOf_trans.
    destruct (IH _ _ _ _ _ _ _ _ (unitDraws_tail _ _ Ht3' Hunit) Hrec)
      as (Ht4 & Hlen & Hbands & Hspikes & Hlen').
    split; [eauto using tailOf_trans |].
    split; [simpl; now rewrite Hlen |]. split; [| split].
    + split.
      * split; [reflexivity |]. split; [reflexivity |]. split; [reflexivity |].
        exists u. now split.
      * eapply eachFrom_impl; [| exact Hbands].
        intros j a (Hw & Hh & Hy & v & Hv & Hxv).
        split; [exact Hw |]. split; [exact Hh |]. split; [exact Hy |].
        exists v. split; [eapply tailOf_In; eauto | exact Hxv].
    + apply Forall_app. split; [exact Htris' |].
      eapply Forall_impl; [| exact Hspikes].
      intros t. apply spikeOn_more. intros p Hp. now right.
    + rewrite length_app. lia.
Qed.

Lemma safePlatformsLoop_layout n : forall winPos sceneBounds draws ps rest,
  unitDraws draws ->
  safePlatformsLoop n winPos sceneBounds draws = Some (ps, rest) ->
  List.length ps = n /\ Forall (safePlatform winPos sceneBounds) ps.
Proof.
  induction n as [| n IH]; intros winPos sceneBounds draws ps rest Hunit.
  - simpl. intros [<- _]%ret_Some. split; [reflexivity | constructor].
  - simpl. rewrite bind_Some. intros (dx & d1 & Hdx & H).
    apply bind_Some in H as (dy & d2 & Hdy & H).
    apply bind_Some in H as (ps' & d3 & Hrec & H).
    apply ret_Some in H as [<- _].
    pose proof (boundedInt_tail _ _ _ _ _ Hdx) as Ht1.
    pose proof (boundedInt_tail _ _ _ _ _ Hdy) as Ht2.
    pose proof (unitDraws_tail _ _ Ht1 Hunit) as Hu1.
    pose proof (unitDraws_tail _ _ Ht2 Hu1) as Hu2.
    apply (boundedInt_range (-60) 60) in Hdx; [| exact Hunit | lia].
    apply (boundedInt_range 0 40) in Hdy; [| exact Hu1 | lia].
    destruct (IH _ _ _ _ _ Hu2 Hrec) as (Hlen & Hall).
    split; [simpl; now rewrite Hlen |].
    constructor; [| exact Hall].
    split; [reflexivity |]. split; [reflexivity |]. exists dx, dy. auto.
Qed.

(** What the second branch of [generateLevel] lays out. *)
Lemma randomLayout_layout spawn sceneBounds draws lay rest :
  unitDraws draws ->
  randomLayout spawn sceneBounds draws = Some (lay, rest) ->
  exists winPos path safe,
    goal lay = mkRect (px winPos) (py winPos) 30 30
    /\ layoutPlatforms lay = path ++ safe
    /\ List.length path = 14%nat
    /\ eachFrom (bandPlatform spawn ((py spawn - py winPos) / 14) sceneBounds draws)
                0 path
    /\ (2 <= List.length safe <= 3)%nat
    /\ Forall (safePlatform winPos sceneBounds) safe
    /\ Forall (spikeOn path) (layoutTriangles lay)
    /\ (List.length (layoutTriangles lay) <= 14)%nat.
Proof.
  intros Hunit. unfold randomLayout. rewrite bind_Some.
  intros (winPos & d1 & Hwin & H).
  apply bind_Some in H as ([path tris] & d2 & Hpath & H).
  apply bind_Some in H as (k & d3 & Hk & H).
  apply bind_Some in H as (safe & d4 & Hsafe & H).
  apply ret_Some in H as [<- _].
  apply sampleWinPos_spec in Hwin as (Ht1 & _).
  pose proof (unitDraws_tail _ _ Ht1 Hunit) as Hu1.
  apply (pathPlatforms_layout _ _ _ _ _ _ _ _ _ Hu1) in Hpath
    as (Ht2 & Hlen & Hbands & Hspikes & Hlen').
  pose proof (unitDraws_tail _ _ Ht2 Hu1) as Hu2.
  pose proof (boundedInt_tail _ _ _ _ _ Hk) as Ht3.
  apply (boundedInt_range 2 4) in Hk; [| exact Hu2 | lia].
  apply (safePlatformsLoop_layout _ _ _ _ _ _ (unitDraws_tail _ _ Ht3 Hu2)) in Hsafe
    as (Hlens & Hsafe).
  exists winPos, path, safe. simpl.
  split; [reflexivity |]. split; [reflexivity |]. split; [exact Hlen |].
  split.
  { eapply eachFrom_impl; [| exact Hbands].
    intros j a (Hw & Hh & Hy & v & Hv & Hxv).
    split; [exact Hw |]. split; [exact Hh |]. split; [exact Hy |].
    exists v. split; [eapply tailOf_In; eauto | exact Hxv]. }
  split; [lia |]. split; [exact Hsafe |]. split; [exact Hspikes | exact Hlen'].
Qed.

Lemma generateLevel_layout g draws g' rest :
  level g <> 0%Z -> isNull (lastSpawnPos g) = false ->
  unitDraws draws ->
  generateLevel g draws = Some (g', rest) ->
  exists lay,
    randomLayout (lastSpawnPos g) (sceneRect g) draws = Some (lay, rest)
    /\ winCircle g' = Some (goal lay)
    /\ platforms g' = layoutPlatforms lay
    /\ redTriangles g' = layoutTriangles lay.
Proof.
  intros Hl Hn _ Hgen.
  assert (Hb : isBootstrap g = false) by now apply isBootstrap_false.
  destruct (generateLevel_random _ _ _ _ Hb Hgen) as (lay & Hlay & _ & Hc & Hp & Ht & _).
  exists lay. auto.
Qed.

(** X13. A generation that is not the first-level one returns 16 or 17
    platforms, the fourteen of the path and two or three near the goal,
    each 80 by 10, and at most 14 spikes. *)
Theorem level_has_16_or_17_platforms (g : GameView) (draws : list Q)
    (g' : GameView) (rest : list Q) :
  level g <> 0%Z ->
  isNull (lastSpawnPos g) = false ->
  unitDraws draws ->
  generateLevel g draws = Some (g', rest) ->
  (16 <= List.length (platforms g') <= 17)%nat
  /\ Forall (fun p => w p = 80 /\ h p = 10) (platforms g')
  /\ (List.length (redTriangles g') <= 14)%nat.
Proof.
  intros Hl Hn Hunit Hgen.
  destruct (generateLevel_layout _ _ _ _ Hl Hn Hunit Hgen) as (lay & Hlay & _ & Hp & Ht).
  apply (randomLayout_layout _ _ _ _ _ Hunit) in Hlay
    as (winPos & path & safe & _ & Hps & Hlen & Hbands & Hlens & Hsafe & _ & Hlent).
  rewrite Hp, Ht, Hps, length_app, Hlen.
  split; [lia |]. split; [| exact Hlent].
  apply Forall_app. split.
  - eapply eachFrom_Forall; [| exact Hbands]. intros j a (Hw & Hh & _). now split.
  - eapply Forall_impl; [| exact Hsafe]. intros a (Hw & Hh & _). now split.
Qed.

(** X14. Every spike of a generated level stands on one of its fourteen
    path platforms: the base lies on the platform's top line and starts
    10 to 69 right of the platform's left edge, 20 wide (so it can reach
    up to 9 beyond the platform's right edge), and the tip is 10 above
    the middle of the base. *)
Theorem spikes_stand_on_path_platforms (g : GameView) (draws : list Q)
    (g' : GameView) (rest : list Q) :
  level g <> 0%Z ->
  isNull (lastSpawnPos g) = false ->
  unitDraws draws ->
  generateLevel g draws = Some (g', rest) ->
  Forall (spikeOn (firstn 14 (platforms g'))) (redTriangles g')
  /\ Forall (fun tri =>
               exists p a b c,
                 In p (firstn 14 (platforms g')) /\ tri = [a; b; c]
                 /\ py b = top p /\ py c = top p /\ py a = top p - 10
                 /\ left p + 10 <= px b /\ px b < left p + 70
                 /\ px c == px b + 20 /\ px a == px b + 10
                 /\ px c < right p + 10)
            (redTriangles g').
Proof.
  intros Hl Hn Hunit Hgen.
  destruct (generateLevel_layout _ _ _ _ Hl Hn Hunit Hgen) as (lay & Hlay & _ & Hp & Ht).
  apply (randomLayout_layout _ _ _ _ _ Hunit) in Hlay
    as (winPos & path & safe & _ & Hps & Hlen & Hbands & _ & _ & Hspikes & _).
  assert (Hfirst : firstn 14 (platforms g') = path).
  { rewrite Hp, Hps, <- Hlen, firstn_app, Nat.sub_diag, firstn_all. simpl.
    apply app_nil_r. }
  rewrite Hfirst, Ht. split; [exact Hspikes |].
  eapply Forall_impl; [| exact Hspikes].
  intros tri (p & off & Hin & Hoff & ->).
  assert (Hw : w p = 80).
  { assert (Hall : Forall (fun p => w p = 80) path).
    { eapply eachFrom_Forall; [| exact Hbands]. now intros j a (Hw & _). }
    rewrite Forall_forall in Hall. now apply Hall. }
  exists p, (mkPoint (xp p + inject_Z off + 10) (yp p - 10)),
    (mkPoint (xp p + inject_Z off) (yp p)),
    (mkPoint (xp p + inject_Z off + 20) (yp p)).
  unfold top, left, right. rewrite Hw. simpl.
  assert (H10 : 10 <= inject_Z off).
  { change 10 with (inject_Z 10). rewrite <- Zle_Qle. lia. }
  assert (H70 : inject_Z off < 70).
  { change 70 with (inject_Z 70). rewrite <- Zlt_Qlt. lia. }
  repeat split; try reflexivity; try lra; exact Hin.
Qed.

(** X15. The path platforms are on fourteen evenly spaced heights: the
    platform of index [j], from 0 to 13, has its top at the spawn height
    less [j] fourteenths of the way from the spawn height to the goal's.
    The first is at the spawn height itself and the last is one
    fourteenth of the way short of the goal's. *)
Theorem path_platforms_on_bands (g : GameView) (draws : list Q)
    (g' : GameView) (rest : list Q) (j : nat) :
  level g <> 0%Z ->
  isNull (lastSpawnPos g) = false ->
  unitDraws draws ->
  generateLevel g draws = Some (g', rest) ->
  (j < 14)%nat ->
  exists c,
    winCircle g' = Some c
    /\ yp (nth j (platforms g') (mkRect 0 0 0 0))
       == py (lastSpawnPos g)
          - inject_Z (Z.of_nat j) * ((py (lastSpawnPos g) - yp c) / 14).
Proof.
  intros Hl Hn Hunit Hgen Hj.
  destruct (generateLevel_layout _ _ _ _ Hl Hn Hunit Hgen) as (lay & Hlay & Hc & Hp & _).
  apply (randomLayout_layout _ _ _ _ _ Hunit) in Hlay
    as (winPos & path & safe & Hgoal & Hps & Hlen & Hbands & _).
  exists (goal lay). split; [exact Hc |].
  rewrite Hp, Hps, app_nth1 by lia.
  destruct (eachFrom_nth _ (mkRect 0 0 0 0) path 0%Z j Hbands ltac:(lia))
    as (_ & _ & Hy & _).
  rewrite Hy, Hgoal. simpl. reflexivity.
Qed.



(** X17. The two or three platforms after the fourteenth are near the
    goal: each is placed from 60 left to 59 right of the goal's corner
    and from 40 to 79 below it, and then bounded to the scene, so that in
    a scene at least 10 high its top is between 0 and the scene's height
    less 10. *)
Theorem safe_platforms_near_goal (g : GameView) (draws : list Q)
    (g' : GameView) (rest : list Q) :
  level g <> 0%Z ->
  isNull (lastSpawnPos g) = false ->
  unitDraws draws ->
  10 <= height (sceneRect g) ->
  generateLevel g draws = Some (g', rest) ->
  exists c,
    winCircle g' = Some c
    /\ (2 <= List.length (skipn 14 (platforms g')) <= 3)%nat
    /\ Forall (fun p =>
                 safePlatform (mkPoint (xp c) (yp c)) (sceneRect g) p
                 /\ 0 <= top p /\ top p <= height (sceneRect g) - 10)
              (skipn 14 (platforms g')).
Proof.
  intros Hl Hn Hunit Hhigh Hgen.
  destruct (generateLevel_layout _ _ _ _ Hl Hn Hunit Hgen) as (lay & Hlay & Hc & Hp & _).
  apply (randomLayout_layout _ _ _ _ _ Hunit) in Hlay
    as (winPos & path & safe & Hgoal & Hps & Hlen & _ & Hlens & Hsafe & _).
  exists (goal lay). split; [exact Hc |].
  assert (Hskip : skipn 14 (platforms g') = safe).
  { rewrite Hp, Hps, <- Hlen, skipn_app, Nat.sub_diag, skipn_all. reflexivity. }
  rewrite Hskip, Hgoal. simpl. split; [exact Hlens |].
  eapply Forall_impl; [| exact Hsafe].
  intros a Ha. destruct winPos as [gx gy]. split; [exact Ha |].
  destruct Ha as (_ & _ & dx & dy & _ & _ & _ & Hy). unfold top. rewrite Hy.
  destruct (qBound_range 0 (gy + 40 + inject_Z dy) (height (sceneRect g) - 10))
    as [Hlo Hhi].
  split; [exact Hlo |]. apply Hhi. simpl in *. lra.
Qed.

Lemma samplePlatformX_never spawn sceneBounds y draws :
  Forall (fun u => tooCloseToSpawn spawn (u * (width sceneBounds - 80)) y = true)
         draws ->
  samplePlatformX spawn sceneBounds y draws = None.
Proof.
  induction 1 as [| u draws Hu _ IH]; simpl; [reflexivity |]. now rewrite Hu.
Qed.

Lemma narrow_scene_rejects spawn sceneBounds y u :
  0 < width sceneBounds -> width sceneBounds < 200 ->
  px spawn == width sceneBounds / 2 ->
  y == py spawn ->
  unitDraw u ->
  tooCloseToSpawn spawn (u * (width sceneBounds - 80)) y = true.
Proof.
  intros H0 H200 Hx Hy [Hu0 Hu1]. unfold tooCloseToSpawn.
  apply andb_true_iff. rewrite !Qltb_true, !qAbs_Qabs. split.
  - apply Qabs_Qlt_condition. rewrite Hx.
    assert (Hhalf : width sceneBounds / 2 == width sceneBounds * (1 # 2)) by field.
    rewrite Hhalf. split; nra.
  - apply Qabs_Qlt_condition. rewrite Hy. split; lra.
Qed.

(** X18. In a scene less than 200 wide whose spawn point is at half its
    width, as the first level puts it, the platform loop never finds a
    place: a generation that is not the first-level one returns no level,
    however many draws it is given. *)
Theorem narrow_scene_never_generates (g : GameView) (draws : list Q) :
  level g <> 0%Z ->
  isNull (lastSpawnPos g) = false ->
  unitDraws draws ->
  0 < width (sceneRect g) ->
  width (sceneRect g) < 200 ->
  px (lastSpawnPos g) == width (sceneRect g) / 2 ->
  generateLevel g draws = None.
Proof.
  intros Hl Hn Hunit H0 H200 Hx.
  assert (Hb : isBootstrap g = false) by now apply isBootstrap_false.
  unfold generateLevel, layoutFor. rewrite Hb. unfold bind at 1.
  destruct (randomLayout (lastSpawnPos g) (sceneRect g) draws) as [[lay rest] |] eqn:Hlay;
    [exfalso | reflexivity].
  unfold randomLayout in Hlay. apply bind_Some in Hlay as (winPos & d1 & Hwin & H).
  apply bind_Some in H as ([path tris] & d2 & Hpath & _).
  apply sampleWinPos_spec in Hwin as (Ht1 & _).
  pose proof (unitDraws_tail _ _ Ht1 Hunit) as Hu1.
  cbn [pathPlatforms numPlatforms] in Hpath. unfold bind at 1 in Hpath.
  rewrite samplePlatformX_never in Hpath; [discriminate |].
  eapply Forall_impl; [| exact Hu1].
  intros u Hu. apply narrow_scene_rejects; auto.
  simpl inject_Z. ring.
Qed.




(** X21. The platform loop returns the first draw that, scaled to the
    scene's width less 80, is not within 100 of the spawn point
    sideways while the band is within 80 of it in height, after reading
    the rejected draws before it and nothing after it. *)
Theorem platform_loop_returns_first_clear (spawn : QPointF) (sceneBounds : QRectF)
    (y : Q) (rejected : list Q) (u : Q) (rest : list Q) :
  Forall (fun v => withinBox spawn 100 80 (v * (width sceneBounds - 80)) y) rejected ->
  ~ withinBox spawn 100 80 (u * (width sceneBounds - 80)) y ->
  samplePlatformX spawn sceneBounds y (rejected ++ u :: rest)
  = Some (u * (width sceneBounds - 80), rest).
Proof.
  intros Hrej Hu. rewrite samplePlatformX_skips.
  - simpl. now rewrite (proj2 (tooCloseToSpawn_false _ _ _) Hu).
  - eapply Forall_impl; [| exact Hrej]. intros v Hv.
    destruct (tooCloseToSpawn spawn (v * (width sceneBounds - 80)) y) eqn:E;
      [reflexivity |].
    apply tooCloseToSpawn_false in E. contradiction.
Qed.

(** ** Further properties of the tick *)

(** X22. A tick of a running game in which the moved player does not
    collide with the goal always returns, reads no draw, and leaves the
    level as it is: platforms, spikes, goal, spawn point, level count,
    scene, held keys and game-over text. *)
Theorem tick_without_goal_keeps_level (g : GameView) (draws : list Q) :
  (deaths g < 10)%Z ->
  collidesWithGoal (playerPos (physics g)) (winCircle g) = false ->
  exists g',
    updatePosition g draws = Some (g', draws)
    /\ platforms g' = platforms g /\ redTriangles g' = redTriangles g
    /\ winCircle g' = winCircle g /\ lastSpawnPos g' = lastSpawnPos g
    /\ level g' = level g /\ sceneRect g' = sceneRect g
    /\ keysPressed g' = keysPressed g /\ gameOverText g' = gameOverText g.
Proof.
  intros Hplay Hgoal. eexists. split; [now apply updatePosition_no_goal |].
  unfold checkSpikes.
  destruct (hitSpike_cases (redTriangles (physics g)) (physics g)) as [[_ ->] | [_ ->]];
    simpl; repeat split.
Qed.

Lemma playerRect_positive : 0 < w playerRect /\ 0 < h playerRect.
Proof.
  clear collidesWithEllipse collidesWithPolygon.
  destruct playerRect_size as [Hw Hh]. unfold width, height in *.
  pose proof margin_nonneg. split; lra.
Qed.

(** X23. A landing puts the player between where it was and where it was
    heading: when the platform loop sets on-ground, in a level whose
    platforms have a positive size, the velocity after gravity is at most
    0 and the height it sets is not above the player's height before the
    tick and is above the tentative one. *)
Theorem landing_is_between (g : GameView) :
  solidPlatforms g ->
  onGround (landed g) = true ->
  (velocity (tentative g) <= 0)%Z
  /\ py (playerPos g) <= py (nextPos (landed g))
  /\ py (nextPos (landed g)) < py (nextPos (tentative g)).
Proof.
  intros Hsolid Hog. unfold landed in *.
  destruct (landing_cases (platforms g) (currentPosOf g) (tentative g))
    as [[Heq _] | (before & p & after & Hsplit & _ & (Hmeet & Hv & Habove) & Heq)].
  - rewrite Heq in Hog. discriminate.
  - rewrite Heq. simpl. split; [exact Hv |].
    rewrite currentPosOf_py in Habove.
    assert (Hp : 0 < w p /\ 0 < h p).
    { unfold solidPlatforms in Hsolid. rewrite Forall_forall in Hsolid.
      apply Hsolid. rewrite Hsplit. apply in_elt. }
    destruct (boundingRect_geometry p) as (_ & _ & Hbw & Hbh).
    destruct playerRect_positive as [Hpw Hph]. pose proof margin_nonneg as Hm.
    apply intersects_pos in Hmeet; simpl; unfold sceneBoundingRect; try lra.
    destruct Hmeet as (_ & _ & _ & Hlow). simpl in Hlow.
    unfold sceneBoundingRect, top, height in *. split; lra.
Qed.

Lemma not_grounded g : onGround (grounded g) = false -> grounded g = tentative g.
Proof.
  intros Hog. destruct (grounded_cases g) as [[_ Hg] | [_ Hg]]; rewrite Hg in Hog |- *.
  - discriminate.
  - unfold landed in *.
    destruct (landing_cases (platforms g) (currentPosOf g) (tentative g))
      as [[-> _] | (? & ? & ? & _ & _ & _ & Heq)]; [reflexivity |].
    rewrite Heq in Hog. discriminate.
Qed.

Lemma airborne_tick g :
  onGround (grounded g) = false ->
  verticalVelocity (physics g) = (verticalVelocity g - 1)%Z
  /\ py (playerPos (physics g))
     = py (playerPos g) - inject_Z (verticalVelocity g - 1)
  /\ py (playerPos (physics g)) < bottom (sceneRect g) - height playerRect.
Proof.
  intros Hog. pose proof (not_grounded g Hog) as Hg.
  assert (Hy : py (playerPos (physics g))
               = py (playerPos g) - inject_Z (verticalVelocity g - 1)).
  { rewrite physics_pos, resolve_py, Hg. apply tentative_py. }
  split; [| split; [exact Hy |]].
  - rewrite physics_velocity, resolve_velocity, Hog, andb_false_r, Hg. reflexivity.
  - rewrite physics_pos, resolve_py.
    destruct (grounded_cases g) as [[_ Hc] | [Hf Hc]].
    + rewrite Hc in Hog. discriminate.
    + rewrite Hc. now apply Qgeb_false in Hf.
Qed.

(** X24. Nobody falls for ever: a player that is not going up, [n] or
    less above the floor line, is on the ground (on a platform or on the
    floor) in one of the next [n + 1] ticks, whatever keys are held. *)
Theorem fall_ends (n : nat) : forall g : GameView,
  (verticalVelocity g <= 0)%Z ->
  bottom (sceneRect g) - height playerRect - py (playerPos g)
    <= inject_Z (Z.of_nat n) ->
  exists k, (k <= n)%nat /\ onGround (grounded (Nat.iter k physics g)) = true.
Proof.
  induction n as [| n IH]; intros g Hv Hd.
  - exists 0%nat. split; [lia |]. simpl.
    destruct (onGround (grounded g)) eqn:Hog; [reflexivity | exfalso].
    destruct (airborne_tick g Hog) as (_ & Hy & Hlt).
    rewrite Hy in Hlt.
    assert (H1 : inject_Z (verticalVelocity g - 1) <= -1 # 1).
    { change (-1 # 1) with (inject_Z (-1)). rewrite <- Zle_Qle. lia. }
    change (inject_Z (Z.of_nat 0)) with 0 in Hd. lra.
  - destruct (onGround (grounded g)) eqn:Hog.
    + exists 0%nat. split; [lia | exact Hog].
    + destruct (airborne_tick g Hog) as (Hv' & Hy & _).
      destruct (IH (physics g)) as (k & Hk & Hground).
      * lia.
      * change (sceneRect (physics g)) with (sceneRect g). rewrite Hy.
        assert (H1 : inject_Z (verticalVelocity g - 1) <= -1 # 1).
        { change (-1 # 1) with (inject_Z (-1)). rewrite <- Zle_Qle. lia. }
        rewrite Nat2Z.inj_succ in Hd. unfold Z.succ in Hd.
        rewrite inject_Z_plus in Hd. change (inject_Z 1) with 1 in Hd. lra.
      * exists (S k). split; [lia |].
        rewrite <- Nat.iter_succ_r in Hground. exact Hground.
Qed.

End Tick.

(** ** Runs of the model *)

Example first_level_is_built :
  newGameView mainScene [] = Some (firstLevel, []).
Proof. reflexivity. Qed.

Example first_level_hud :
  livesText firstLevel = "Lives left: 10"%string
  /\ levelsText firstLevel = "Levels won: 0"%string.
Proof. split; reflexivity. Qed.

(** Closes a goal about concrete numbers by evaluating it. *)
Ltac evaluate :=
  vm_compute; first [reflexivity | discriminate | lia].

Ltac fails_test H := vm_compute in H; discriminate H.

(** *** Landing *)

Lemma landing_first_match_witness :
  platforms descending = [ledgeFar] ++ ledge :: [ledgeBelow]
  /\ (forall q, In q [ledgeFar] ->
        ~ landsOn defaultPen (currentPosOf descending) (tentative descending) q)
  /\ landsOn defaultPen (currentPosOf descending) (tentative descending) ledge
  /\ nextPos (landed defaultPen descending) = mkPoint 120 (2228 # 8)
  /\ py (nextPos (landed defaultPen descending)) + height (playerRect defaultPen)
     == top (sceneBoundingRect defaultPen ledge)
  /\ velocity (landed defaultPen descending) = 0%Z
  /\ onGround (landed defaultPen descending) = true
  /\ verticalVelocity (physics defaultPen descending) = 0%Z.
Proof.
  assert (H1 : platforms descending = [ledgeFar] ++ ledge :: [ledgeBelow])
    by reflexivity.
  assert (H2 : forall q, In q [ledgeFar] ->
             ~ landsOn defaultPen (currentPosOf descending) (tentative descending) q).
  { intros q [<- | []] (Hmeet & _). fails_test Hmeet. }
  assert (H3 : landsOn defaultPen (currentPosOf descending) (tentative descending) ledge).
  { split; [| split]; evaluate. }
  destruct (landing_first_match defaultPen descending [ledgeFar] [ledgeBelow] ledge
              H1 H2 H3) as (Hpos & Hedge & Hv & Hog & _ & _ & Hcommit).
  split; [exact H1 |]. split; [exact H2 |]. split; [exact H3 |].
  split; [rewrite Hpos; reflexivity |]. split; [exact Hedge |].
  split; [exact Hv |]. split; [exact Hog |]. apply Hcommit. reflexivity.
Defined.

(** The platform listed after [ledge] passes the test as well, and is not
    the one landed on. *)
Example later_platform_is_not_considered :
  landsOn defaultPen (currentPosOf descending) (tentative descending) ledgeBelow
  /\ ~ py (nextPos (landed defaultPen descending)) + height (playerRect defaultPen)
       == top (sceneBoundingRect defaultPen ledgeBelow).
Proof.
  split; [split; [| split]; evaluate |]. intros H. fails_test H.
Qed.

(** *** Gravity *)

Lemma gravity_step_witness :
  (forall q, In q (platforms rising) ->
     ~ landsOn defaultPen (currentPosOf rising) (tentative rising) q)
  /\ floorTest defaultPen (sceneRect rising) (tentative rising) = false
  /\ verticalVelocity rising = 3%Z
  /\ verticalVelocity (physics defaultPen rising) = 2%Z
  /\ py (playerPos (physics defaultPen rising)) = 100 - inject_Z 2.
Proof.
  assert (H1 : forall q, In q (platforms rising) ->
             ~ landsOn defaultPen (currentPosOf rising) (tentative rising) q).
  { intros q [<- | [<- | []]] (Hmeet & _); fails_test Hmeet. }
  assert (H2 : floorTest defaultPen (sceneRect rising) (tentative rising) = false)
    by reflexivity.
  destruct (gravity_step defaultPen rising H1 H2) as (_ & _ & _ & Hv & _ & Hy).
  split; [exact H1 |]. split; [exact H2 |]. split; [reflexivity |].
  split; [exact Hv |]. rewrite Hy, Hv. reflexivity.
Defined.

(** Falling from rest in the air: the velocity goes 0, -1, -2, -3. *)
Example free_fall_velocities :
  map (fun n => verticalVelocity
                  (Nat.iter n (physics defaultPen)
                     (sampleView (mkPoint 700 100) [ledge] [] [] 0 0)))
      [0; 1; 2; 3]%nat
  = [0; -1; -2; -3]%Z.
Proof. reflexivity. Qed.

(** *** The jump *)

Lemma jump_delayed_witness :
  contains (keysPressed standingJumpHeld) Key_W = true
  /\ onGround (grounded defaultPen standingJumpHeld) = true
  /\ verticalVelocity (physics defaultPen standingJumpHeld) = 20%Z
  /\ py (playerPos (physics defaultPen standingJumpHeld))
     == py (playerPos standingJumpHeld)
  /\ verticalVelocity
       (physics defaultPen (setKeysPressed (physics defaultPen standingJumpHeld) []))
     = 19%Z
  /\ py (playerPos
           (physics defaultPen (setKeysPressed (physics defaultPen standingJumpHeld) [])))
     == py (playerPos standingJumpHeld) - 19.
Proof.
  assert (H1 : contains (keysPressed standingJumpHeld) Key_W = true) by reflexivity.
  assert (H2 : onGround (grounded defaultPen standingJumpHeld) = true) by reflexivity.
  destruct (jump_delayed defaultPen standingJumpHeld H1 H2) as (Hv & Hy & _ & Hnext).
  destruct (Hnext []) as (Hv' & Hy').
  split; [exact H1 |]. split; [exact H2 |]. split; [exact Hv |].
  split; [rewrite Hy; reflexivity |]. split; [exact Hv' |].
  rewrite Hy', Hy. reflexivity.
Defined.

(** *** Standing still *)

Lemma rest_is_stable_witness :
  atRestOn defaultPen standing ledge
  /\ noHorizontalInput standing
  /\ contains (keysPressed standing) Key_W = false
  /\ betweenWalls defaultPen standing
  /\ top (sceneBoundingRect defaultPen ledge) <= bottom (sceneRect standing)
  /\ landsLevelWith defaultPen standing ledge
  /\ staysPut defaultPen standing.
Proof.
  assert (H1 : atRestOn defaultPen standing ledge).
  { split; [right; left; reflexivity |]. repeat split; evaluate. }
  assert (H2 : noHorizontalInput standing) by (split; reflexivity).
  assert (H3 : contains (keysPressed standing) Key_W = false) by reflexivity.
  assert (H4 : betweenWalls defaultPen standing) by (split; evaluate).
  assert (H5 : top (sceneBoundingRect defaultPen ledge) <= bottom (sceneRect standing))
    by evaluate.
  assert (H6 : landsLevelWith defaultPen standing ledge).
  { intros q [<- | [<- | []]] (Hmeet & _); [fails_test Hmeet | reflexivity]. }
  repeat (split; [assumption |]).
  exact (rest_is_stable defaultPen standing ledge H1 H2 H3 H4 H5 H6).
Defined.

(** With the jump key held, a player at rest with no direction key held
    leaves the platform: the first tick sets the velocity to 20.  Shown
    for the default pen and for a pen of no width. *)
Lemma rest_with_jump_held_moves :
  (atRestOn defaultPen standingJumpHeld ledge
   /\ noHorizontalInput standingJumpHeld
   /\ ~ staysPut defaultPen standingJumpHeld)
  /\ (atRestOn 0 standingThinPen ledge
      /\ noHorizontalInput standingThinPen
      /\ ~ staysPut 0 standingThinPen).
Proof.
  split.
  - split; [split; [right; left; reflexivity | repeat split; evaluate] |].
    split; [split; reflexivity |].
    intros H. destruct (H 1%nat) as (_ & _ & Hv). fails_test Hv.
  - split; [split; [right; left; reflexivity | repeat split; evaluate] |].
    split; [split; reflexivity |].
    intros H. destruct (H 1%nat) as (_ & _ & Hv). fails_test Hv.
Qed.

(** The same player two ticks later is 19 higher. *)
Example rest_with_jump_held_rises :
  py (playerPos (Nat.iter 2 (physics defaultPen) standingJumpHeld))
  == py (playerPos standingJumpHeld) - 19.
Proof. reflexivity. Qed.

(** No key held at all, but a platform half a unit lower comes first in
    the list: the player sinks onto it. *)
Example rest_above_step_sinks :
  atRestOn defaultPen standingAboveStep ledge
  /\ noHorizontalInput standingAboveStep
  /\ contains (keysPressed standingAboveStep) Key_W = false
  /\ betweenWalls defaultPen standingAboveStep
  /\ py (playerPos (physics defaultPen standingAboveStep))
     == py (playerPos standingAboveStep) + (1 # 2).
Proof.
  split; [split; [right; left; reflexivity | repeat split; evaluate] |].
  split; [split; reflexivity |]. split; [reflexivity |].
  split; [split; evaluate | reflexivity].
Qed.

(** Outside the walls the player is pushed back in; below the floor line
    it is lifted onto it. *)
Example rest_in_wall_is_pushed :
  atRestOn defaultPen standingInWall ledgeInWall
  /\ px (playerPos (physics defaultPen standingInWall)) == 0.
Proof.
  split; [split; [left; reflexivity | repeat split; evaluate] | reflexivity].
Qed.

Example rest_under_floor_is_lifted :
  atRestOn defaultPen standingUnderFloor ledgeUnderFloor
  /\ py (playerPos (physics defaultPen standingUnderFloor)) == 479.
Proof.
  split; [split; [left; reflexivity | repeat split; evaluate] | reflexivity].
Qed.

(** *** Generation *)

Example second_level_is_built :
  generateLevel firstLevelWon sampleDraws = Some (secondLevelView, secondLevelRest).
Proof. reflexivity. Qed.

Lemma path_platforms_clear_of_spawn_witness :
  level firstLevelWon <> 0%Z
  /\ isNull (lastSpawnPos firstLevelWon) = false
  /\ generateLevel firstLevelWon sampleDraws = Some (secondLevelView, secondLevelRest)
  /\ exists path safe,
       platforms secondLevelView = path ++ safe
       /\ List.length path = 14%nat
       /\ Forall (fun p => ~ withinBox (lastSpawnPos firstLevelWon) 100 80 (xp p) (yp p))
            path.
Proof.
  assert (H1 : level firstLevelWon <> 0%Z) by discriminate.
  assert (H2 : isNull (lastSpawnPos firstLevelWon) = false) by reflexivity.
  assert (H3 : generateLevel firstLevelWon sampleDraws
               = Some (secondLevelView, secondLevelRest)) by reflexivity.
  split; [exact H1 |]. split; [exact H2 |]. split; [exact H3 |].
  destruct (path_platforms_clear_of_spawn firstLevelWon sampleDraws
              secondLevelView secondLevelRest H1 H2 H3)
    as (path & safe & Hp & Hlen & _ & Hall).
  exists path, safe. split; [exact Hp |]. split; [exact Hlen |].
  eapply Forall_impl; [| exact Hall]. intros p (_ & _ & Hout & _). exact Hout.
Defined.

Lemma sampleDraws_unit : unitDraws sampleDraws.
Proof.
  unfold unitDraws, sampleDraws.
  repeat (constructor; [split; evaluate |]). constructor.
Defined.

Lemma goal_far_from_spawn_witness :
  level firstLevelWon <> 0%Z
  /\ isNull (lastSpawnPos firstLevelWon) = false
  /\ unitDraws sampleDraws
  /\ sceneAtOrigin firstLevelWon
  /\ 0 < width (sceneRect firstLevelWon)
  /\ 0 < height (sceneRect firstLevelWon)
  /\ generateLevel firstLevelWon sampleDraws = Some (secondLevelView, secondLevelRest)
  /\ exists gx gy,
       winCircle secondLevelView = Some (mkRect gx gy 30 30)
       /\ 150 * 150 <= lengthSquared (lastSpawnPos firstLevelWon) (mkPoint gx gy)
       /\ 0 <= gy /\ gy < 250 /\ 0 <= gx /\ gx < 1000.
Proof.
  assert (H1 : level firstLevelWon <> 0%Z) by discriminate.
  assert (H2 : isNull (lastSpawnPos firstLevelWon) = false) by reflexivity.
  assert (H4 : sceneAtOrigin firstLevelWon) by (split; reflexivity).
  assert (H5 : 0 < width (sceneRect firstLevelWon)) by reflexivity.
  assert (H6 : 0 < height (sceneRect firstLevelWon)) by reflexivity.
  assert (H7 : generateLevel firstLevelWon sampleDraws
               = Some (secondLevelView, secondLevelRest)) by reflexivity.
  split; [exact H1 |]. split; [exact H2 |]. split; [exact sampleDraws_unit |].
  split; [exact H4 |]. split; [exact H5 |]. split; [exact H6 |].
  split; [exact H7 |].
  destruct (goal_far_from_spawn firstLevelWon sampleDraws secondLevelView
              secondLevelRest H1 H2 sampleDraws_unit H4 H5 H6 H7)
    as (gx & gy & Hc & Hfar & _ & Ht & Hb & Hl & Hr).
  exists gx, gy. split; [exact Hc |]. split; [exact Hfar |].
  split; [exact Ht |]. split; [| split; [exact Hl |]].
  - eapply Qlt_le_trans; [exact Hb | evaluate].
  - eapply Qlt_le_trans; [exact Hr | evaluate].
Defined.

Lemma bootstrap_layout_witness :
  (level (blank mainScene) = 0%Z \/ isNull (lastSpawnPos (blank mainScene)) = true)
  /\ exists g' p c,
       generateLevel (blank mainScene) [] = Some (g', [])
       /\ playerPos g' = mkPoint (1000 / 2) (500 - 20)
       /\ platforms g' = [p] /\ w p = 100 /\ h p = 10
       /\ top p = 500 - 20 + 20
       /\ winCircle g' = Some c
       /\ xp c = 1000 / 2 - 100 /\ yp c = 500 - 50.
Proof.
  assert (H1 : level (blank mainScene) = 0%Z
               \/ isNull (lastSpawnPos (blank mainScene)) = true)
    by (left; reflexivity).
  split; [exact H1 |].
  destruct (bootstrap_layout (blank mainScene) [] H1)
    as (g' & spawn & p & c & Hgen & Hs & Hpos & _ & Hp & Hw & Hh & Ht & _ & _ & _
        & _ & _ & _ & Hc & _ & _ & Hcx & _ & Hcy).
  exists g', p, c. rewrite Hs in *.
  repeat (split; [assumption |]). exact Hcy.
Defined.

(** *** Spikes, the goal and the end of the game *)

Lemma spike_costs_one_life_witness :
  (deaths (onTheSpike 3) < 10)%Z
  /\ exists g',
       updatePosition defaultPen boxCollidesEllipse boxCollidesPolygon
         (onTheSpike 3) [] = Some (g', [])
       /\ deaths g' = 4%Z
       /\ playerPos g' = lastSpawnPos (onTheSpike 3)
       /\ verticalVelocity g' = verticalVelocity (physics defaultPen (onTheSpike 3)).
Proof.
  assert (H1 : (deaths (onTheSpike 3) < 10)%Z) by reflexivity.
  split; [exact H1 |].
  exists (updateHUD (checkSpikes boxCollidesPolygon (physics defaultPen (onTheSpike 3)))).
  assert (H2 : updatePosition defaultPen boxCollidesEllipse boxCollidesPolygon
                 (onTheSpike 3) []
               = Some (updateHUD (checkSpikes boxCollidesPolygon
                                    (physics defaultPen (onTheSpike 3))), []))
    by reflexivity.
  destruct (spike_costs_one_life defaultPen boxCollidesEllipse boxCollidesPolygon
              (onTheSpike 3) [] _ [] H1 H2)
    as (g2 & Hwin & _ & _ & _ & _ & Hv & Hhit & _).
  assert (Hg2 : g2 = physics defaultPen (onTheSpike 3)).
  { vm_compute in Hwin. injection Hwin as <-. reflexivity. }
  destruct (Hhit ltac:(rewrite Hg2; reflexivity)) as (Hd & Hp).
  split; [exact H2 |]. split; [exact Hd |].
  split; [rewrite Hp, Hg2; reflexivity | exact Hv].
Defined.

Lemma game_over_is_terminal_witness :
  (deaths (onTheSpike 9) < 10)%Z
  /\ exists g',
       updatePosition defaultPen boxCollidesEllipse boxCollidesPolygon
         (onTheSpike 9) [] = Some (g', [])
       /\ (10 <= deaths g')%Z
       /\ livesText g' = "Lives left: 0"%string
       /\ exists g'',
            run defaultPen boxCollidesEllipse boxCollidesPolygon
              [Timeout; KeyPress Key_W; Timeout; Resize 800 400; Timeout] g' sampleDraws
            = Some (g'', sampleDraws)
            /\ frozenAs g' g''
            /\ livesText g'' = "Lives left: 0"%string.
Proof.
  assert (H1 : (deaths (onTheSpike 9) < 10)%Z) by reflexivity.
  split; [exact H1 |].
  exists (updateHUD (checkSpikes boxCollidesPolygon (physics defaultPen (onTheSpike 9)))).
  assert (H2 : updatePosition defaultPen boxCollidesEllipse boxCollidesPolygon
                 (onTheSpike 9) []
               = Some (updateHUD (checkSpikes boxCollidesPolygon
                                    (physics defaultPen (onTheSpike 9))), []))
    by reflexivity.
  assert (H3 : (10 <= deaths (updateHUD (checkSpikes boxCollidesPolygon
                                            (physics defaultPen (onTheSpike 9)))))%Z)
    by evaluate.
  destruct (game_over_is_terminal defaultPen boxCollidesEllipse boxCollidesPolygon
              (onTheSpike 9) [] _ [] H1 H2 H3) as (_ & _ & Hlives & Hrun).
  split; [exact H2 |]. split; [exact H3 |]. split; [exact Hlives |].
  destruct (Hrun [Timeout; KeyPress Key_W; Timeout; Resize 800 400; Timeout] sampleDraws)
    as (g'' & Hr & Hf & _ & Hl & _).
  exists g''. split; [exact Hr |]. split; [exact Hf | exact Hl].
Defined.

Lemma win_regenerates_before_spikes_witness :
  (deaths reachingGoal < 10)%Z
  /\ collidesWithGoal boxCollidesEllipse
       (playerPos (physics defaultPen reachingGoal)) (winCircle reachingGoal) = true
  /\ onSpike boxCollidesPolygon (physics defaultPen reachingGoal) = true
  /\ (forall old,
        updatePosition defaultPen boxCollidesEllipse boxCollidesPolygon
          (setRedTriangles reachingGoal old) sampleDraws
        = updatePosition defaultPen boxCollidesEllipse boxCollidesPolygon
            reachingGoal sampleDraws)
  /\ exists g' rest,
       updatePosition defaultPen boxCollidesEllipse boxCollidesPolygon
         reachingGoal sampleDraws = Some (g', rest)
       /\ level g' = 1%Z /\ deaths g' = 0%Z.
Proof.
  assert (H1 : (deaths reachingGoal < 10)%Z) by reflexivity.
  assert (H2 : collidesWithGoal boxCollidesEllipse
                 (playerPos (physics defaultPen reachingGoal))
                 (winCircle reachingGoal) = true) by reflexivity.
  destruct (win_regenerates_before_spikes defaultPen boxCollidesEllipse
              boxCollidesPolygon reachingGoal sampleDraws H1 H2)
    as (Heq & Hold & Hres).
  split; [exact H1 |]. split; [exact H2 |]. split; [reflexivity |].
  split; [exact Hold |].
  destruct (updatePosition defaultPen boxCollidesEllipse boxCollidesPolygon
              reachingGoal sampleDraws) as [[g' rest] |] eqn:Htick;
    [| vm_compute in Htick; discriminate Htick].
  exists g', rest. split; [reflexivity |].
  destruct (Hres g' rest eq_refl) as (gl & Hgen & Hl & _ & _ & _ & _ & _ & Hmiss).
  split; [exact Hl |]. apply Hmiss.
  vm_compute in Hgen. injection Hgen as <- _. reflexivity.
Defined.

(** In the scene of [main] the first level's platform reaches from 460 to
    560: its middle, 510, is not the spawn point's 500. *)
Lemma bootstrap_platform_off_centre :
  generateLevel (blank mainScene) [] = Some (firstLevel, [])
  /\ playerPos firstLevel = mkPoint (1000 / 2) (500 - 20)
  /\ platforms firstLevel = [mkRect (1000 / 2 - 40) (500 - 20 + 20) 100 10]
  /\ (forall p, In p (platforms firstLevel) ->
        left p == 460 /\ right p == 560
        /\ ~ left p + width p / 2 == px (playerPos firstLevel)).
Proof.
  split; [reflexivity |]. split; [reflexivity |]. split; [reflexivity |].
  intros p [<- | []]. split; [reflexivity |]. split; [reflexivity |].
  intros H. fails_test H.
Qed.

(** *** Walking *)

(** Ten ticks with the right key held, from the spawn point of the first
    level: 70 to the right. *)
Example ten_steps_right :
  px (playerPos (Nat.iter 10 (physics defaultPen)
                   (setKeysPressed firstLevel [Key_D])))
  == px (playerPos firstLevel) + 70.
Proof. reflexivity. Qed.

(** The right wall stops the player's box: 1000 less its width. *)
Example right_wall :
  px (playerPos (Nat.iter 100 (physics defaultPen)
                   (setKeysPressed firstLevel [Key_D])))
  == 1000 - width (playerRect defaultPen).
Proof. reflexivity. Qed.

Example first_level_scene_at_origin : sceneAtOrigin firstLevel.
Proof. split; reflexivity. Qed.

(** ** More runs of the model *)

(** Closes a goal from a hypothesis that evaluates to a falsehood. *)
Ltac refuted H :=
  vm_compute in H; first [discriminate H | exact (H eq_refl)].


(** A player below the floor line is on it after one tick. *)
Example tick_lifts_to_floor :
  ~ aboveFloor defaultPen standingUnderFloor
  /\ aboveFloor defaultPen (physics defaultPen standingUnderFloor).
Proof.
  split; [intros H; refuted H | evaluate].
Qed.

Lemma sideways_step_witness :
  left (sceneRect descending)
    <= px (playerPos descending) + sidewaysShift [Key_A]
  /\ px (playerPos descending) + sidewaysShift [Key_A]
       <= right (sceneRect descending) - width (playerRect defaultPen)
  /\ px (playerPos (physics defaultPen (setKeysPressed descending [Key_A])))
     == px (playerPos descending) - 7.
Proof.
  assert (H1 : left (sceneRect (setKeysPressed descending [Key_A]))
               <= px (playerPos (setKeysPressed descending [Key_A]))
                  + sidewaysShift (keysPressed (setKeysPressed descending [Key_A])))
    by evaluate.
  assert (H2 : px (playerPos (setKeysPressed descending [Key_A]))
               + sidewaysShift (keysPressed (setKeysPressed descending [Key_A]))
               <= right (sceneRect (setKeysPressed descending [Key_A]))
                  - width (playerRect defaultPen)) by evaluate.
  split; [exact H1 |]. split; [exact H2 |].
  rewrite (sideways_step defaultPen (setKeysPressed descending [Key_A]) H1 H2).
  reflexivity.
Defined.

(** Both direction keys held: the player stays where it is. *)
Example opposite_keys_cancel :
  px (playerPos (physics defaultPen (setKeysPressed standing [Key_A; Key_D])))
  == px (playerPos standing).
Proof. reflexivity. Qed.

Lemma rising_passes_platforms_witness :
  (2 <= verticalVelocity risingUnderLedge)%Z
  /\ aboveFloor defaultPen risingUnderLedge
  /\ intersects (rectAt (nextPos (tentative risingUnderLedge))
                        (size (playerRect defaultPen)))
                (sceneBoundingRect defaultPen ledge) = true
  /\ onGround (grounded defaultPen risingUnderLedge) = false
  /\ verticalVelocity (physics defaultPen risingUnderLedge) = 9%Z
  /\ py (playerPos (physics defaultPen risingUnderLedge)) == 306.
Proof.
  assert (H1 : (2 <= verticalVelocity risingUnderLedge)%Z) by evaluate.
  assert (H2 : aboveFloor defaultPen risingUnderLedge) by evaluate.
  destruct (rising_passes_platforms defaultPen risingUnderLedge H1 H2)
    as (_ & Hog & Hv & Hy).
  split; [exact H1 |]. split; [exact H2 |]. split; [reflexivity |].
  split; [exact Hog |]. split; [exact Hv |]. rewrite Hy. reflexivity.
Defined.

Lemma jump_arc_witness :
  (Z.of_nat 19 < verticalVelocity jumping)%Z
  /\ aboveFloor defaultPen jumping
  /\ verticalVelocity (Nat.iter 19 (physics defaultPen) jumping) = 1%Z
  /\ py (playerPos (Nat.iter 19 (physics defaultPen) jumping))
     == py (playerPos jumping) - 190.
Proof.
  assert (H1 : (Z.of_nat 19 < verticalVelocity jumping)%Z) by evaluate.
  assert (H2 : aboveFloor defaultPen jumping) by evaluate.
  destruct (jump_arc defaultPen jumping 19 H1 H2) as (Hv & Hy).
  split; [exact H1 |]. split; [exact H2 |]. split; [exact Hv |].
  rewrite Hy. reflexivity.
Defined.

Lemma landing_is_between_witness :
  solidPlatforms descending
  /\ onGround (landed defaultPen descending) = true
  /\ py (playerPos descending) <= py (nextPos (landed defaultPen descending))
  /\ py (nextPos (landed defaultPen descending)) < py (nextPos (tentative descending)).
Proof.
  assert (H1 : solidPlatforms descending).
  { unfold solidPlatforms. simpl. repeat (constructor; [split; evaluate |]).
    constructor. }
  assert (H2 : onGround (landed defaultPen descending) = true) by reflexivity.
  destruct (landing_is_between defaultPen descending H1 H2) as (_ & Hlo & Hhi).
  repeat (split; [assumption |]). exact Hhi.
Defined.

Lemma velocity_at_most_jump_witness :
  (verticalVelocity standingJumpHeld <= 20)%Z
  /\ exists g' rest,
       run defaultPen boxCollidesEllipse boxCollidesPolygon
         [Timeout; Timeout; Timeout] standingJumpHeld [] = Some (g', rest)
       /\ verticalVelocity g' = 18%Z
       /\ (verticalVelocity g' <= 20)%Z.
Proof.
  assert (H1 : (verticalVelocity standingJumpHeld <= 20)%Z) by evaluate.
  split; [exact H1 |].
  destruct (run defaultPen boxCollidesEllipse boxCollidesPolygon
              [Timeout; Timeout; Timeout] standingJumpHeld [])
    as [[g' rest] |] eqn:Hrun; [| vm_compute in Hrun; discriminate Hrun].
  exists g', rest. split; [reflexivity |]. split.
  - vm_compute in Hrun. injection Hrun as <- _. reflexivity.
  - exact (velocity_at_most_jump defaultPen boxCollidesEllipse boxCollidesPolygon
             _ _ _ _ _ H1 Hrun).
Defined.

Lemma counters_grow_with_ticks_witness :
  exists g' rest,
    run defaultPen boxCollidesEllipse boxCollidesPolygon
      [Timeout; KeyPress Key_W; Timeout] (onTheSpike 3) [] = Some (g', rest)
    /\ deaths g' = 5%Z
    /\ (deaths (onTheSpike 3) <= deaths g' <= deaths (onTheSpike 3) + 2)%Z
    /\ (level (onTheSpike 3) <= level g' <= level (onTheSpike 3) + 2)%Z.
Proof.
  destruct (run defaultPen boxCollidesEllipse boxCollidesPolygon
              [Timeout; KeyPress Key_W; Timeout] (onTheSpike 3) [])
    as [[g' rest] |] eqn:Hrun; [| vm_compute in Hrun; discriminate Hrun].
  exists g', rest. split; [reflexivity |]. split.
  - vm_compute in Hrun. injection Hrun as <- _. reflexivity.
  - exact (counters_grow_with_ticks defaultPen boxCollidesEllipse boxCollidesPolygon
             _ _ _ _ _ Hrun).
Defined.

Lemma deaths_at_most_ten_witness :
  (deaths (onTheSpike 8) <= 10)%Z
  /\ exists g' rest,
       run defaultPen boxCollidesEllipse boxCollidesPolygon
         [Timeout; Timeout; Timeout; Timeout] (onTheSpike 8) [] = Some (g', rest)
       /\ deaths g' = 10%Z
       /\ (deaths g' <= 10 /\ 0 <= 10 - deaths g')%Z.
Proof.
  assert (H1 : (deaths (onTheSpike 8) <= 10)%Z) by evaluate.
  split; [exact H1 |].
  destruct (run defaultPen boxCollidesEllipse boxCollidesPolygon
              [Timeout; Timeout; Timeout; Timeout] (onTheSpike 8) [])
    as [[g' rest] |] eqn:Hrun; [| vm_compute in Hrun; discriminate Hrun].
  exists g', rest. split; [reflexivity |]. split.
  - vm_compute in Hrun. injection Hrun as <- _. reflexivity.
  - exact (deaths_at_most_ten defaultPen boxCollidesEllipse boxCollidesPolygon
             _ _ _ _ _ H1 Hrun).
Defined.

Lemma hud_shows_counters_witness :
  newGameView mainScene [] = Some (firstLevel, [])
  /\ exists g' rest,
       run defaultPen boxCollidesEllipse boxCollidesPolygon
         sampleEvents firstLevel [] = Some (g', rest)
       /\ hudInSync g'.
Proof.
  assert (H1 : newGameView mainScene [] = Some (firstLevel, [])) by reflexivity.
  split; [exact H1 |].
  destruct (run defaultPen boxCollidesEllipse boxCollidesPolygon
              sampleEvents firstLevel [])
    as [[g' rest] |] eqn:Hrun; [| vm_compute in Hrun; discriminate Hrun].
  exists g', rest. split; [reflexivity |].
  exact (hud_shows_counters defaultPen boxCollidesEllipse boxCollidesPolygon
           mainScene sampleEvents [] firstLevel [] g' rest H1 Hrun).
Defined.

Lemma spawn_point_is_fixed_witness :
  isNull (lastSpawnPos reachingGoal) = false
  /\ (0 <= level reachingGoal)%Z
  /\ exists g' rest,
       run defaultPen boxCollidesEllipse boxCollidesPolygon
         [Timeout; Timeout] reachingGoal sampleDraws = Some (g', rest)
       /\ level g' = 1%Z
       /\ lastSpawnPos g' = lastSpawnPos reachingGoal.
Proof.
  assert (H1 : isNull (lastSpawnPos reachingGoal) = false) by reflexivity.
  assert (H2 : (0 <= level reachingGoal)%Z) by evaluate.
  split; [exact H1 |]. split; [exact H2 |].
  destruct (run defaultPen boxCollidesEllipse boxCollidesPolygon
              [Timeout; Timeout] reachingGoal sampleDraws)
    as [[g' rest] |] eqn:Hrun; [| vm_compute in Hrun; discriminate Hrun].
  exists g', rest. split; [reflexivity |]. split.
  - vm_compute in Hrun. injection Hrun as <- _. reflexivity.
  - exact (spawn_point_is_fixed defaultPen boxCollidesEllipse boxCollidesPolygon
             _ _ _ _ _ H1 H2 Hrun).
Defined.

Lemma inputs_follow_events_witness :
  exists g' rest,
    run defaultPen boxCollidesEllipse boxCollidesPolygon
      sampleEvents firstLevel [] = Some (g', rest)
    /\ sceneRect g' = mkRect 0 0 (inject_Z 800) (inject_Z 400)
    /\ keysPressed g' = [].
Proof.
  destruct (run defaultPen boxCollidesEllipse boxCollidesPolygon
              sampleEvents firstLevel [])
    as [[g' rest] |] eqn:Hrun; [| vm_compute in Hrun; discriminate Hrun].
  exists g', rest. split; [reflexivity |].
  destruct (inputs_follow_events defaultPen boxCollidesEllipse boxCollidesPolygon
              _ _ _ _ _ Hrun) as [Hs Hk].
  split; [rewrite Hs | rewrite Hk]; reflexivity.
Defined.

(** *** More generation *)

Lemma level_has_16_or_17_platforms_witness :
  level firstLevelWon <> 0%Z
  /\ isNull (lastSpawnPos firstLevelWon) = false
  /\ unitDraws sampleDraws
  /\ generateLevel firstLevelWon sampleDraws = Some (secondLevelView, secondLevelRest)
  /\ List.length (platforms secondLevelView) = 16%nat
  /\ (16 <= List.length (platforms secondLevelView) <= 17)%nat
  /\ (List.length (redTriangles secondLevelView) <= 14)%nat.
Proof.
  assert (H1 : level firstLevelWon <> 0%Z) by discriminate.
  assert (H2 : isNull (lastSpawnPos firstLevelWon) = false) by reflexivity.
  assert (H4 : generateLevel firstLevelWon sampleDraws
               = Some (secondLevelView, secondLevelRest)) by reflexivity.
  destruct (level_has_16_or_17_platforms firstLevelWon sampleDraws secondLevelView
              secondLevelRest H1 H2 sampleDraws_unit H4) as (Hn & _ & Ht).
  split; [exact H1 |]. split; [exact H2 |]. split; [exact sampleDraws_unit |].
  split; [exact H4 |]. split; [reflexivity |]. split; [exact Hn | exact Ht].
Defined.

Lemma spikes_stand_on_path_platforms_witness :
  level firstLevelWon <> 0%Z
  /\ isNull (lastSpawnPos firstLevelWon) = false
  /\ unitDraws sampleDraws
  /\ generateLevel firstLevelWon sampleDraws = Some (secondLevelView, secondLevelRest)
  /\ List.length (redTriangles secondLevelView) = 8%nat
  /\ Forall (spikeOn (firstn 14 (platforms secondLevelView)))
            (redTriangles secondLevelView).
Proof.
  assert (H1 : level firstLevelWon <> 0%Z) by discriminate.
  assert (H2 : isNull (lastSpawnPos firstLevelWon) = false) by reflexivity.
  assert (H4 : generateLevel firstLevelWon sampleDraws
               = Some (secondLevelView, secondLevelRest)) by reflexivity.
  destruct (spikes_stand_on_path_platforms firstLevelWon sampleDraws secondLevelView
              secondLevelRest H1 H2 sampleDraws_unit H4) as (Hs & _).
  split; [exact H1 |]. split; [exact H2 |]. split; [exact sampleDraws_unit |].
  split; [exact H4 |]. split; [reflexivity | exact Hs].
Defined.

Lemma path_platforms_on_bands_witness :
  level firstLevelWon <> 0%Z
  /\ isNull (lastSpawnPos firstLevelWon) = false
  /\ unitDraws sampleDraws
  /\ generateLevel firstLevelWon sampleDraws = Some (secondLevelView, secondLevelRest)
  /\ (3 < 14)%nat
  /\ exists c,
       winCircle secondLevelView = Some c
       /\ yp (nth 3 (platforms secondLevelView) (mkRect 0 0 0 0))
          == 480 - 3 * ((480 - yp c) / 14).
Proof.
  assert (H1 : level firstLevelWon <> 0%Z) by discriminate.
  assert (H2 : isNull (lastSpawnPos firstLevelWon) = false) by reflexivity.
  assert (H4 : generateLevel firstLevelWon sampleDraws
               = Some (secondLevelView, secondLevelRest)) by reflexivity.
  assert (H5 : (3 < 14)%nat) by lia.
  split; [exact H1 |]. split; [exact H2 |]. split; [exact sampleDraws_unit |].
  split; [exact H4 |]. split; [exact H5 |].
  exact (path_platforms_on_bands firstLevelWon sampleDraws secondLevelView
           secondLevelRest 3 H1 H2 sampleDraws_unit H4 H5).
Defined.


Lemma safe_platforms_near_goal_witness :
  level firstLevelWon <> 0%Z
  /\ isNull (lastSpawnPos firstLevelWon) = false
  /\ unitDraws sampleDraws
  /\ 10 <= height (sceneRect firstLevelWon)
  /\ generateLevel firstLevelWon sampleDraws = Some (secondLevelView, secondLevelRest)
  /\ exists c,
       winCircle secondLevelView = Some c
       /\ (2 <= List.length (skipn 14 (platforms secondLevelView)) <= 3)%nat
       /\ Forall (fun p => safePlatform (mkPoint (xp c) (yp c)) mainScene p)
                 (skipn 14 (platforms secondLevelView)).
Proof.
  assert (H1 : level firstLevelWon <> 0%Z) by discriminate.
  assert (H2 : isNull (lastSpawnPos firstLevelWon) = false) by reflexivity.
  assert (H3 : 10 <= height (sceneRect firstLevelWon)) by evaluate.
  assert (H4 : generateLevel firstLevelWon sampleDraws
               = Some (secondLevelView, secondLevelRest)) by reflexivity.
  split; [exact H1 |]. split; [exact H2 |]. split; [exact sampleDraws_unit |].
  split; [exact H3 |]. split; [exact H4 |].
  destruct (safe_platforms_near_goal firstLevelWon sampleDraws secondLevelView
              secondLevelRest H1 H2 sampleDraws_unit H3 H4) as (c & Hc & Hn & Hall).
  exists c. split; [exact Hc |]. split; [exact Hn |].
  eapply Forall_impl; [| exact Hall]. intros p [Hp _]. exact Hp.
Defined.

Lemma narrow_scene_never_generates_witness :
  level narrowView <> 0%Z
  /\ isNull (lastSpawnPos narrowView) = false
  /\ unitDraws sampleDraws
  /\ 0 < width (sceneRect narrowView)
  /\ width (sceneRect narrowView) < 200
  /\ px (lastSpawnPos narrowView) == width (sceneRect narrowView) / 2
  /\ generateLevel narrowView sampleDraws = None.
Proof.
  assert (H1 : level narrowView <> 0%Z) by discriminate.
  assert (H2 : isNull (lastSpawnPos narrowView) = false) by reflexivity.
  assert (H4 : 0 < width (sceneRect narrowView)) by reflexivity.
  assert (H5 : width (sceneRect narrowView) < 200) by reflexivity.
  assert (H6 : px (lastSpawnPos narrowView) == width (sceneRect narrowView) / 2)
    by reflexivity.
  repeat (split; [first [assumption | exact sampleDraws_unit] |]).
  exact (narrow_scene_never_generates narrowView sampleDraws H1 H2 sampleDraws_unit
           H4 H5 H6).
Defined.





Lemma platform_loop_returns_first_clear_witness :
  Forall (fun v => withinBox (mkPoint 500 480) 100 80 (v * (width mainScene - 80)) 480)
         [1 # 2; 3 # 5]
  /\ ~ withinBox (mkPoint 500 480) 100 80 ((1 # 10) * (width mainScene - 80)) 480
  /\ samplePlatformX (mkPoint 500 480) mainScene 480 [1 # 2; 3 # 5; 1 # 10; 1 # 5]
     = Some ((1 # 10) * (width mainScene - 80), [1 # 5]).
Proof.
  assert (H1 : Forall (fun v => withinBox (mkPoint 500 480) 100 80
                                  (v * (width mainScene - 80)) 480)
                 [1 # 2; 3 # 5]).
  { repeat (constructor; [split; evaluate |]). constructor. }
  assert (H2 : ~ withinBox (mkPoint 500 480) 100 80
                   ((1 # 10) * (width mainScene - 80)) 480).
  { intros [H _]. refuted H. }
  split; [exact H1 |]. split; [exact H2 |].
  exact (platform_loop_returns_first_clear (mkPoint 500 480) mainScene 480
           [1 # 2; 3 # 5] (1 # 10) [1 # 5] H1 H2).
Defined.

Lemma tick_without_goal_keeps_level_witness :
  (deaths (onTheSpike 3) < 10)%Z
  /\ collidesWithGoal boxCollidesEllipse
       (playerPos (physics defaultPen (onTheSpike 3))) (winCircle (onTheSpike 3)) = false
  /\ exists g',
       updatePosition defaultPen boxCollidesEllipse boxCollidesPolygon
         (onTheSpike 3) sampleDraws = Some (g', sampleDraws)
       /\ platforms g' = platforms (onTheSpike 3)
       /\ redTriangles g' = redTriangles (onTheSpike 3)
       /\ level g' = level (onTheSpike 3).
Proof.
  assert (H1 : (deaths (onTheSpike 3) < 10)%Z) by reflexivity.
  assert (H2 : collidesWithGoal boxCollidesEllipse
                 (playerPos (physics defaultPen (onTheSpike 3)))
                 (winCircle (onTheSpike 3)) = false) by reflexivity.
  split; [exact H1 |]. split; [exact H2 |].
  destruct (tick_without_goal_keeps_level defaultPen boxCollidesEllipse
              boxCollidesPolygon (onTheSpike 3) sampleDraws H1 H2)
    as (g' & Ht & Hp & Hr & _ & _ & Hl & _).
  exists g'. repeat (split; [assumption |]). exact Hl.
Defined.

Lemma fall_ends_witness :
  (verticalVelocity hovering <= 0)%Z
  /\ bottom (sceneRect hovering) - height (playerRect defaultPen)
       - py (playerPos hovering) <= inject_Z (Z.of_nat 301)
  /\ exists k, (k <= 301)%nat
       /\ onGround (grounded defaultPen (Nat.iter k (physics defaultPen) hovering)) = true.
Proof.
  assert (H1 : (verticalVelocity hovering <= 0)%Z) by evaluate.
  assert (H2 : bottom (sceneRect hovering) - height (playerRect defaultPen)
               - py (playerPos hovering) <= inject_Z (Z.of_nat 301)) by evaluate.
  split; [exact H1 |]. split; [exact H2 |].
  exact (fall_ends defaultPen 301 hovering H1 H2).
Defined.

(** Walking right off [ledge]'s column, [hovering] misses it and is on
    the floor in the 25th tick. *)
Example hovering_lands :
  map (fun k => onGround (grounded defaultPen (Nat.iter k (physics defaultPen) hovering)))
      [13; 23; 24]%nat
  = [false; false; true].
Proof. reflexivity. Qed.
